(** * Audio sample pipeline of [_exercice_version_prof.py]

    A shallow embedding of the signal functions of the exercise
    (channel interleaving, time base, sine generator, normalisation and
    the 16-bit PCM codec) together with the properties of its
    specification.

    The functions are written once, over an interface [Arith] of the
    arithmetic that NumPy performs on a sample.  Two instances are
    given:

    - [binary64], IEEE 754 double precision as specified by the
      standard library's [SpecFloat] (what the interpreter computes:
      rounding, infinities, NaN); it is executable;
    - [R], exact real arithmetic (what the specification calls a
      "real" sample, results "up to floating rounding").

    Python exceptions are values of [result]; a Python function that
    falls off its end returns [None]. *)

From Stdlib Require Import ZArith List Bool Lia.
From Stdlib.Strings Require Byte.
From Stdlib.Init Require Import Byte.
From Stdlib Require Import SpecFloat.
From Stdlib Require Import Reals Lra Zfloor.
Import ListNotations.

Set Implicit Arguments.

(** ** Python results *)

Inductive exn : Type :=
| TypeError
| ValueError.

Inductive result (A : Type) : Type :=
| Ok (a : A)
| Err (e : exn).

Arguments Ok {A} a.
Arguments Err {A} e.

Definition bind {A B : Type} (r : result A) (k : A -> result B) : result B :=
  match r with
  | Ok a => k a
  | Err e => Err e
  end.

Notation "x <- r ;; k" := (bind r (fun x => k))
  (at level 61, r at next level, right associativity).

Definition is_err {A : Type} (r : result A) : bool :=
  match r with
  | Ok _ => false
  | Err _ => true
  end.

(** ** The arithmetic of a sample *)

Class Arith (F : Type) : Type := {
  of_int : Z -> F;            (* float(z), astype(float) *)
  fadd : F -> F -> F;
  fsub : F -> F -> F;
  fmul : F -> F -> F;
  fdiv : F -> F -> F;
  fabs : F -> F;
  fisnan : F -> bool;
  feqb : F -> F -> bool;      (* a == b *)
  fltb : F -> F -> bool;      (* a < b *)
  fleb : F -> F -> bool;      (* a <= b *)
  to_int : F -> Z             (* C cast to an integer: truncation toward zero *)
}.

(** np.sin and np.pi. *)
Class Trig (F : Type) : Type := {
  fsin : F -> F;
  fpi : F
}.

(** *** IEEE 754 binary64 *)

Definition binary64 : Type := spec_float.

Definition prec64 : Z := 53.
Definition emax64 : Z := 1024.

Definition b64_of_int (z : Z) : binary64 :=
  binary_normalize prec64 emax64 z 0 false.

Definition b64_isnan (x : binary64) : bool :=
  match x with
  | S754_nan => true
  | _ => false
  end.

(** Truncation toward zero of a finite value m * 2^e.  The C cast of a
    NaN or of an infinity is undefined; SSE2 conversion followed by the
    narrowing to 16 bits leaves 0. *)
Definition b64_to_int (x : binary64) : Z :=
  match x with
  | S754_finite s m e =>
      let a := match e with
               | Zneg p => Z.shiftr (Zpos m) (Zpos p)
               | _ => Z.shiftl (Zpos m) e
               end in
      if s then Z.opp a else a
  | _ => 0%Z
  end.

#[export] Instance binary64_arith : Arith binary64 := {
  of_int := b64_of_int;
  fadd := SFadd prec64 emax64;
  fsub := SFsub prec64 emax64;
  fmul := SFmul prec64 emax64;
  fdiv := SFdiv prec64 emax64;
  fabs := SFabs;
  fisnan := b64_isnan;
  feqb := SFeqb;
  fltb := SFltb;
  fleb := SFleb;
  to_int := b64_to_int
}.

(** *** Exact reals *)

Definition R_eqb (a b : R) : bool := if Req_dec_T a b then true else false.
Definition R_ltb (a b : R) : bool := if Rlt_dec a b then true else false.
Definition R_leb (a b : R) : bool := if Rle_dec a b then true else false.

Definition R_to_int (x : R) : Z :=
  if Rle_dec 0 x then Zfloor x else Zceil x.

#[export] Instance R_arith : Arith R := {
  of_int := IZR;
  fadd := Rplus;
  fsub := Rminus;
  fmul := Rmult;
  fdiv := Rdiv;
  fabs := Rabs;
  fisnan := fun _ => false;
  feqb := R_eqb;
  fltb := R_ltb;
  fleb := R_leb;
  to_int := R_to_int
}.

#[export] Instance R_trig : Trig R := {
  fsin := sin;
  fpi := PI
}.

(** ** Module constants *)

Definition SAMPLING_FREQ : Z := 44100.
Definition SAMPLE_WIDTH : Z := 16.
Definition MAX_INT_SAMPLE_VALUE : Z := 2 ^ (SAMPLE_WIDTH - 1) - 1.

(** ** Built-ins and NumPy functions used by the module *)

(** The [len] integers from [start] on. *)
Fixpoint zrange_from (start : Z) (len : nat) : list Z :=
  match len with
  | O => []
  | S len' => start :: zrange_from (start + 1) len'
  end.

Section Builtins.
Context {A : Type}.

(** One step of [zip]: the next item of every iterator, or nothing as
    soon as one of them is exhausted. *)
Fixpoint heads (cs : list (list A)) : option (list A) :=
  match cs with
  | [] => Some []
  | c :: rest =>
      match c, heads rest with
      | x :: _, Some hs => Some (x :: hs)
      | _, _ => None
      end
  end.

(** The tuples of [zip], at most [fuel] of them. *)
Fixpoint zip_rows (fuel : nat) (cs : list (list A)) : list (list A) :=
  match fuel with
  | O => []
  | S fuel' =>
      match heads cs with
      | Some row => row :: zip_rows fuel' (map (@tl A) cs)
      | None => []
      end
  end.

(** [zip] over the unpacked list [cs]: no argument gives the empty
    iterator; otherwise the first sequence bounds the number of
    tuples. *)
Definition py_zip (cs : list (list A)) : list (list A) :=
  match cs with
  | [] => []
  | c :: _ => zip_rows (length c) cs
  end.

(** [xs[k::step]] for [0 <= k] and [0 < step]: [k] counts down to the
    next element kept. *)
Fixpoint stride (step k : nat) (xs : list A) : list A :=
  match xs with
  | [] => []
  | x :: rest =>
      match k with
      | O => x :: stride step (pred step) rest
      | S k' => stride step k' rest
      end
  end.

(** [range(n)] *)
Definition py_range (n : Z) : list nat := seq 0 (Z.to_nat n).

(** [y[-1] = v] *)
Definition set_last (y : list A) (v : A) : list A :=
  match y with
  | [] => []
  | _ :: _ => removelast y ++ [v]
  end.
End Builtins.

Section Signal.
Context {F : Type} `{Arith F}.

(** An item handed to [np.fromiter]: a number or an array. *)
Inductive item : Type :=
| Scalar (x : F)
| Array (xs : list F).

(** Storing an item into a float array: a number is stored as it is;
    an array, whatever its length, is not a number and makes NumPy
    raise the [ValueError] "setting an array element with a
    sequence". *)
Definition float_of_item (it : item) : result F :=
  match it with
  | Scalar x => Ok x
  | Array _ => Err ValueError
  end.

Fixpoint np_fromiter (items : list item) : result (list F) :=
  match items with
  | [] => Ok []
  | it :: rest =>
      x <- float_of_item it ;;
      xs <- np_fromiter rest ;;
      Ok (x :: xs)
  end.

(** *** merge_channels, separate_channels *)

Definition merge_channels (channels : list (list F)) : result (list F) :=
  np_fromiter (map Scalar (concat (py_zip channels))).

Definition separate_channels (samples : list F) (num_channels : Z)
  : result (list F) :=
  np_fromiter
    (map (fun i => Array (stride (Z.to_nat num_channels) i samples))
         (py_range num_channels)).

(** The list comprehension that the comment of [separate_channels]
    gives as its equivalent:
    [[samples[i::num_channels] for i in range(num_channels)]]. *)
Definition separate_channels_comment (samples : list F) (num_channels : Z)
  : list (list F) :=
  map (fun i => stride (Z.to_nat num_channels) i samples)
      (py_range num_channels).

(** *** generate_sample_time_points *)

(** A Python number: the type decides whether it can count samples. *)
Inductive pynum : Type :=
| PyInt (z : Z)
| PyFloat (x : F).

Definition to_float (n : pynum) : F :=
  match n with
  | PyInt z => of_int z
  | PyFloat x => x
  end.

(** [n * k] for an int constant [k]. *)
Definition py_mul_int (n : pynum) (k : Z) : pynum :=
  match n with
  | PyInt z => PyInt (z * k)
  | PyFloat x => PyFloat (fmul x (of_int k))
  end.

(** [operator.index], through which [np.linspace] reads [num]: only an
    int is a number of samples, a float raises [TypeError]. *)
Definition operator_index (n : pynum) : result Z :=
  match n with
  | PyInt z => Ok z
  | PyFloat _ => Err TypeError
  end.

(** [np.arange(0, n)] as floats. *)
Definition np_arange (n : Z) : list F :=
  map of_int (zrange_from 0 (Z.to_nat n)).

(** [np.linspace(start, stop, num)] with its default [endpoint=True]. *)
Definition np_linspace (start stop num : pynum) : result (list F) :=
  n <- operator_index num ;;
  if (n <? 0)%Z then Err ValueError
  else
    let div := (n - 1)%Z in
    let start := fmul (to_float start) (of_int 1) in
    let stop := fmul (to_float stop) (of_int 1) in
    let delta := fsub stop start in
    let y := np_arange n in
    let y :=
      if (0 <? div)%Z then
        let step := fdiv delta (of_int div) in
        if feqb step (of_int 0)
        then map (fun v => fmul (fdiv v (of_int div)) delta) y
        else map (fun v => fmul v step) y
      else map (fun v => fmul v delta) y in
    let y := map (fun v => fadd v start) y in
    Ok (if (1 <? n)%Z then set_last y stop else y).

Definition generate_sample_time_points (duration : pynum)
  : result (list F) :=
  np_linspace (PyInt 0) duration (py_mul_int duration SAMPLING_FREQ).

(** *** sine *)

Definition sine `{Trig F} (freq amplitude : F) (duration : pynum)
  : result (list F) :=
  time_points <- generate_sample_time_points duration ;;
  Ok (map (fun t =>
             fmul amplitude
                  (fsin (fmul (fmul (fmul freq (of_int 2)) fpi) t)))
          time_points).

(** *** normalize *)

(** [np.maximum]: the first operand wins when it is a NaN or not
    smaller. *)
Definition np_maximum (a b : F) : F :=
  if fisnan a || fleb b a then a else b.

(** [np.max] of a one-dimensional array; an empty array has no
    maximum. *)
Definition np_max (xs : list F) : result F :=
  match xs with
  | [] => Err ValueError
  | x :: rest => Ok (fold_left np_maximum rest x)
  end.

Definition normalize (samples : list F) (norm_target : F)
  : result (list F) :=
  let abs_samples := map fabs samples in
  max_sample <- np_max abs_samples ;;
  let coeff := fdiv norm_target max_sample in
  let normalized_samples := map (fun s => fmul coeff s) samples in
  Ok normalized_samples.

(** *** convert_to_bytes *)

(** [np.clip(x, lo, hi)]: max with the lower bound, then min with the
    upper one; a NaN goes through. *)
Definition np_clip (x lo hi : F) : F :=
  let m := if fisnan x || fltb lo x then x else lo in
  if fisnan m || fltb m hi then m else hi.

(** The value of a 16-bit pattern read as a signed integer. *)
Definition int16_wrap (z : Z) : Z :=
  ((z + 32768) mod 65536 - 32768)%Z.

(** [astype("<i2")] on a float. *)
Definition astype_i2 (x : F) : Z := int16_wrap (to_int x).

Definition byte_of_Z (z : Z) : byte :=
  match Byte.of_N (Z.to_N (z mod 256)) with
  | Some b => b
  | None => x00
  end.

Definition Z_of_byte (b : byte) : Z := Z.of_N (Byte.to_N b).

(** The two bytes of a 16-bit integer, low byte first. *)
Definition i2_tobytes (v : Z) : list byte :=
  [byte_of_Z v; byte_of_Z (Z.shiftr v 8)].

Definition convert_to_bytes (samples : list F) : list byte :=
  let clipped := map (fun s => np_clip s (of_int (-1)) (of_int 1)) samples in
  let int_samples :=
    map (fun c => astype_i2 (fmul c (of_int MAX_INT_SAMPLE_VALUE))) clipped in
  let sample_bytes := concat (map i2_tobytes int_samples) in
  sample_bytes.

(** *** convert_to_samples *)

Definition i2_frombytes (lo hi : byte) : Z :=
  int16_wrap (Z_of_byte lo + 256 * Z_of_byte hi).

(** [np.frombuffer(buf, dtype="<i2")]: the buffer must hold whole
    items. *)
Fixpoint np_frombuffer_i2 (buf : list byte) : result (list Z) :=
  match buf with
  | [] => Ok []
  | [_] => Err ValueError
  | lo :: hi :: rest =>
      vs <- np_frombuffer_i2 rest ;;
      Ok (i2_frombytes lo hi :: vs)
  end.

(** The local [samples] at the end of the body of
    [convert_to_samples]. *)
Definition convert_to_samples_local (bytes : list byte) : result (list F) :=
  int_samples <- np_frombuffer_i2 bytes ;;
  let samples :=
    map (fun v => fdiv (of_int v) (of_int MAX_INT_SAMPLE_VALUE)) int_samples in
  Ok samples.

(** The body ends without a [return]: the caller receives [None]
    (here the [None] of [option]), whatever [samples] holds. *)
Definition convert_to_samples (bytes : list byte)
  : result (option (list F)) :=
  _ <- convert_to_samples_local bytes ;;
  Ok None.
End Signal.

(** ** The other generators *)

(** np.floor. *)
Class Floor (F : Type) : Type := {
  ffloor : F -> F
}.

(** The floor of a finite binary64 m * 2^e with [e < 0] is an integer
    below 2^53, hence exact; the other values are their own floor. *)
Definition b64_floor (x : binary64) : binary64 :=
  match x with
  | S754_finite s m (Zneg p) =>
      let q := Z.shiftr (Zpos m) (Zpos p) in
      let exact := Z.eqb (Z.shiftl q (Zpos p)) (Zpos m) in
      if s then b64_of_int (if exact then - q else - (q + 1))
      else b64_of_int q
  | _ => x
  end.

#[export] Instance binary64_floor : Floor binary64 := {
  ffloor := b64_floor
}.

#[export] Instance R_floor : Floor R := {
  ffloor := fun x => IZR (Zfloor x)
}.

Section Waveforms.
Context {F : Type} `{Arith F}.

(** [np.sign]: 1, -1 or 0, and a NaN for a NaN. *)
Definition np_sign (x : F) : F :=
  if fltb (of_int 0) x then of_int 1
  else if fltb x (of_int 0) then of_int (-1)
  else if feqb x (of_int 0) then of_int 0
  else x.

(** *** square *)

Definition square `{Trig F} (freq amplitude : F) (duration : pynum)
  : result (list F) :=
  s <- sine freq (of_int 1) duration ;;
  Ok (map (fun v => fmul amplitude (np_sign v)) s).

(** *** sawtooth *)

Definition sawtooth `{Floor F} (freq amplitude : F) (duration : pynum)
  : result (list F) :=
  t <- generate_sample_time_points duration ;;
  Ok (map (fun ti =>
             fmul (fmul amplitude (of_int 2))
                  (fsub (fmul ti freq)
                        (ffloor (fadd (fdiv (of_int 1) (of_int 2))
                                      (fmul ti freq)))))
          t).

(** *** sine_with_overtones *)

(** [np.add(a, b, out=a)] on one-dimensional arrays: element by
    element for equal lengths; a [b] of one element is broadcast; any
    other pair of shapes is rejected. *)
Definition np_add_out (a b : list F) : result (list F) :=
  if Nat.eqb (length a) (length b)
  then Ok (map (fun p => fadd (fst p) (snd p)) (combine a b))
  else
    match b with
    | [b0] => Ok (map (fun x => fadd x b0) a)
    | _ => Err ValueError
    end.

(** The loop over the overtones, [signal] being the accumulator. *)
Fixpoint add_overtones `{Trig F} (root_freq amplitude : F)
         (overtones : list (F * F)) (duration : pynum) (signal : list F)
  : result (list F) :=
  match overtones with
  | [] => Ok signal
  | (freq_factor, amp_factor) :: rest =>
      overtone <- sine (fmul root_freq freq_factor)
                       (fmul amplitude amp_factor) duration ;;
      signal' <- np_add_out signal overtone ;;
      add_overtones root_freq amplitude rest duration signal'
  end.

Definition sine_with_overtones `{Trig F} (root_freq amplitude : F)
           (overtones : list (F * F)) (duration : pynum)
  : result (list F) :=
  signal <- sine root_freq amplitude duration ;;
  add_overtones root_freq amplitude overtones duration signal.
End Waveforms.

(** ** Vocabulary of the properties *)

(** One sample of a sine with overtones, accumulated in the order of
    the loop: the fundamental at time [t], then each overtone. *)
Definition overtone_sample {F : Type} `{Arith F} `{Trig F}
           (root_freq amplitude : F) (overtones : list (F * F)) (t : F) : F :=
  fold_left
    (fun acc p =>
       fadd acc
            (fmul (fmul amplitude (snd p))
                  (fsin (fmul (fmul (fmul (fmul root_freq (fst p)) (of_int 2))
                                    fpi) t))))
    overtones
    (fmul amplitude (fsin (fmul (fmul (fmul root_freq (of_int 2)) fpi) t))).


Section Vocabulary.
Context {A : Type}.

(** Length of the shortest sequence (0 when there is none). *)
Fixpoint shortest (cs : list (list A)) : nat :=
  match cs with
  | [] => 0
  | [c] => length c
  | c :: rest => Nat.min (length c) (shortest rest)
  end.

(** Two of the sequences differ in length. *)
Definition unequal_lengths (cs : list (list A)) : Prop :=
  exists a b, In a cs /\ In b cs /\ length a <> length b.
End Vocabulary.

(** The checks of the time-base property on binary64: the count, the
    order, the first and the last value of the time points of [d]
    whole seconds. *)
Fixpoint b64_increasingb (l : list binary64) : bool :=
  match l with
  | a :: (b :: _) as rest => SFltb a b && b64_increasingb rest
  | _ => true
  end.

Definition b64_time_points_ok (d : Z) : bool :=
  match generate_sample_time_points (F := binary64) (PyInt d) with
  | Ok ts =>
      Nat.eqb (length ts) (Z.to_nat (d * SAMPLING_FREQ))
      && b64_increasingb ts
      && match ts with
         | t0 :: _ => SFeqb t0 (of_int 0)
         | [] => false
         end
      && SFeqb (last ts S754_nan) (of_int d)
  | Err _ => false
  end.

(** The spacing of the time points of [d] whole seconds. *)
Definition time_step (d : Z) : R :=
  (IZR d / IZR (d * SAMPLING_FREQ - 1))%R.

(** Each value is smaller than every later one. *)
Definition strictly_increasing (l : list R) : Prop :=
  forall i j a b,
    i < j -> nth_error l i = Some a -> nth_error l j = Some b -> (a < b)%R.

(** A zero of either sign. *)
Definition b64_is_zero (x : binary64) : bool :=
  match x with
  | S754_zero _ => true
  | _ => false
  end.

(** ** Facts about the built-ins *)

Section ZipFacts.
Context {A : Type}.
Implicit Types (cs : list (list A)) (c row : list A).

Lemma shortest_cons c cs :
  cs <> [] -> shortest (c :: cs) = Nat.min (length c) (shortest cs).
Proof. destruct cs; [congruence | reflexivity]. Qed.

Lemma shortest_le cs c : In c cs -> shortest cs <= length c.
Proof.
  induction cs as [|c0 rest IH]; [contradiction|].
  intros [->|Hin].
  - destruct rest; [simpl; lia|]. rewrite shortest_cons by congruence. lia.
  - destruct rest as [|c1 rest']; [contradiction|].
    rewrite shortest_cons by congruence. specialize (IH Hin). lia.
Qed.

Lemma shortest_uniform cs n :
  cs <> [] -> Forall (fun c => length c = n) cs -> shortest cs = n.
Proof.
  induction cs as [|c0 rest IH]; [congruence|].
  intros _ Hall. inversion Hall as [|? ? Hc Hrest]; subst.
  destruct rest as [|c1 rest']; [reflexivity|].
  rewrite shortest_cons by congruence.
  rewrite IH by (congruence || assumption). lia.
Qed.

Lemma heads_None cs : heads cs = None <-> In [] cs.
Proof.
  induction cs as [|c rest IH]; simpl.
  - split; [discriminate | contradiction].
  - destruct c as [|x c'].
    + split; auto.
    + destruct (heads rest) eqn:E.
      * split; [discriminate|]. intros [Hc|Hin]; [discriminate|].
        apply IH in Hin. discriminate.
      * split; auto. intros _. right. apply IH. reflexivity.
Qed.

Lemma heads_length cs row : heads cs = Some row -> length row = length cs.
Proof.
  revert row. induction cs as [|c rest IH]; simpl; intros row Hh.
  - now inversion Hh.
  - destruct c as [|x c']; [discriminate|].
    destruct (heads rest) eqn:E; [|discriminate].
    inversion Hh; subst. simpl. f_equal. now apply IH.
Qed.

Lemma heads_nth cs row k c :
  heads cs = Some row -> nth_error cs k = Some c ->
  nth_error row k = nth_error c 0.
Proof.
  revert row k. induction cs as [|c0 rest IH]; simpl; intros row k Hh Hk.
  - destruct k; discriminate.
  - destruct c0 as [|x c']; [discriminate|].
    destruct (heads rest) eqn:E; [|discriminate].
    inversion Hh; subst. destruct k as [|k']; simpl in *.
    + now inversion Hk.
    + now apply IH.
Qed.

Lemma nth_error_tl c j : nth_error (tl c) j = nth_error c (S j).
Proof. destruct c; [now destruct j | reflexivity]. Qed.

Lemma shortest_zero cs : cs <> [] -> (shortest cs = 0 <-> In [] cs).
Proof.
  induction cs as [|c rest IH]; [congruence|]. intros _.
  destruct rest as [|c1 rest'].
  - simpl. split.
    + intros Hl. left. now apply length_zero_iff_nil.
    + intros [->|[]]. reflexivity.
  - rewrite shortest_cons by congruence.
    assert (Hr : shortest (c1 :: rest') = 0 <-> In [] (c1 :: rest'))
      by (apply IH; congruence).
    split.
    + intros Hm. destruct (length c) eqn:El.
      * left. now apply length_zero_iff_nil.
      * right. apply Hr. lia.
    + intros [->|Hin]; [reflexivity|]. apply Hr in Hin. lia.
Qed.

Lemma shortest_tl cs :
  ~ In [] cs -> shortest (map (@tl A) cs) = pred (shortest cs).
Proof.
  induction cs as [|c rest IH]; [reflexivity|]. intros Hnil.
  assert (Hc : c <> []) by (intros ->; apply Hnil; now left).
  assert (Hr : ~ In [] rest) by (intros Hin; apply Hnil; now right).
  destruct rest as [|c1 rest'].
  - simpl. now destruct c.
  - change (map (@tl A) (c :: c1 :: rest'))
      with (tl c :: map (@tl A) (c1 :: rest')).
    rewrite !shortest_cons by (simpl; congruence).
    rewrite IH by assumption.
    assert (shortest (c1 :: rest') <> 0).
    { intros Hz. apply Hr. apply shortest_zero; [congruence | assumption]. }
    destruct c; [congruence|]. simpl length. lia.
Qed.

(** The fuel only has to cover the shortest sequence. *)
Lemma zip_rows_length fuel cs :
  cs <> [] -> shortest cs <= fuel ->
  length (zip_rows fuel cs) = shortest cs.
Proof.
  revert cs. induction fuel as [|fuel IH]; intros cs Hne Hle.
  - simpl. lia.
  - simpl. destruct (heads cs) as [row|] eqn:Eh.
    + assert (Hnil : ~ In [] cs).
      { intros Hin. apply heads_None in Hin. congruence. }
      simpl. rewrite IH.
      * rewrite shortest_tl by assumption.
        assert (shortest cs <> 0)
          by (intros Hz; apply Hnil; now apply shortest_zero).
        lia.
      * destruct cs; [congruence | discriminate].
      * rewrite shortest_tl by assumption. lia.
    + apply heads_None in Eh. simpl. symmetry. now apply shortest_zero.
Qed.

Lemma zip_rows_nth fuel cs j row :
  nth_error (zip_rows fuel cs) j = Some row ->
  length row = length cs /\
  forall k c, nth_error cs k = Some c -> nth_error row k = nth_error c j.
Proof.
  revert cs j. induction fuel as [|fuel IH]; intros cs j Hj.
  - destruct j; discriminate.
  - simpl in Hj. destruct (heads cs) as [r|] eqn:Eh.
    + destruct j as [|j']; simpl in Hj.
      * inversion Hj; subst. split; [now apply heads_length|].
        intros k c Hk. now apply heads_nth with (cs := cs).
      * apply IH in Hj. destruct Hj as [Hlen Hnth].
        rewrite length_map in Hlen. split; [assumption|].
        intros k c Hk. rewrite <- nth_error_tl. apply Hnth.
        rewrite nth_error_map, Hk. reflexivity.
    + destruct j; discriminate.
Qed.

Lemma py_zip_length cs : length (py_zip cs) = shortest cs.
Proof.
  destruct cs as [|c rest]; [reflexivity|].
  unfold py_zip. apply zip_rows_length; [congruence|].
  apply shortest_le. now left.
Qed.

Lemma py_zip_nth cs j row :
  nth_error (py_zip cs) j = Some row ->
  length row = length cs /\
  forall k c, nth_error cs k = Some c -> nth_error row k = nth_error c j.
Proof.
  destruct cs as [|c rest]; [destruct j; discriminate|].
  unfold py_zip. apply zip_rows_nth.
Qed.

(** Flattening rows of one width [w]. *)
Lemma concat_uniform_length (rows : list (list A)) w :
  Forall (fun r => length r = w) rows ->
  length (concat rows) = length rows * w.
Proof.
  induction 1 as [|r rows Hr _ IH]; [reflexivity|].
  simpl. rewrite length_app, IH, Hr. reflexivity.
Qed.

Lemma concat_uniform_nth (rows : list (list A)) w j k row :
  Forall (fun r => length r = w) rows ->
  nth_error rows j = Some row -> k < w ->
  nth_error (concat rows) (j * w + k) = nth_error row k.
Proof.
  intros Hall. revert j. induction Hall as [|r rows Hr _ IH]; intros j Hj Hk.
  - destruct j; discriminate.
  - destruct j as [|j']; simpl in *.
    + inversion Hj; subst. apply nth_error_app1. lia.
    + rewrite nth_error_app2 by lia.
      replace (w + j' * w + k - length r) with (j' * w + k) by lia.
      now apply IH.
Qed.

Lemma py_zip_rows_width cs :
  Forall (fun r => length r = length cs) (py_zip cs).
Proof.
  apply Forall_forall. intros r Hin.
  apply In_nth_error in Hin. destruct Hin as [j Hj].
  now apply py_zip_nth in Hj.
Qed.
End ZipFacts.


(** ** Channel interleaving *)

Section MergeFacts.
Context {F : Type} `{Arith F}.

Lemma np_fromiter_scalars (xs : list F) :
  np_fromiter (map Scalar xs) = Ok xs.
Proof.
  induction xs as [|x xs IH]; [reflexivity|].
  simpl. rewrite IH. reflexivity.
Qed.

Lemma merge_channels_eq (channels : list (list F)) :
  merge_channels channels = Ok (concat (py_zip channels)).
Proof. apply np_fromiter_scalars. Qed.

(** Frame-major layout of the result, whatever the lengths. *)
Lemma merge_channels_layout (channels : list (list F)) :
  exists out,
    merge_channels channels = Ok out /\
    length out = length channels * shortest channels /\
    forall j c ch,
      j < shortest channels -> nth_error channels c = Some ch ->
      nth_error out (j * length channels + c) = nth_error ch j.
Proof.
  exists (concat (py_zip channels)). split; [apply merge_channels_eq|].
  pose proof (py_zip_rows_width channels) as Hw.
  split.
  - rewrite (concat_uniform_length Hw), py_zip_length. lia.
  - intros j c ch Hj Hc.
    destruct (nth_error (py_zip channels) j) as [row|] eqn:Erow.
    + assert (Hc' : c < length channels)
        by (apply nth_error_Some; congruence).
      rewrite (concat_uniform_nth _ Hw Erow Hc').
      apply py_zip_nth in Erow. destruct Erow as [_ Hrow]. now apply Hrow.
    + apply nth_error_None in Erow. rewrite py_zip_length in Erow. lia.
Qed.

Lemma shortest_firstn (channels : list (list F)) :
  channels <> [] ->
  shortest (map (firstn (shortest channels)) channels) = shortest channels.
Proof.
  intros Hne. apply shortest_uniform.
  - destruct channels; [congruence | discriminate].
  - apply Forall_forall. intros c Hin. apply in_map_iff in Hin.
    destruct Hin as [c0 [<- Hin]]. rewrite length_firstn.
    pose proof (shortest_le _ _ Hin). lia.
Qed.

Lemma row_ext (cs : list (list F)) (j : nat) (row1 row2 : list F) :
  length row1 = length cs -> length row2 = length cs ->
  (forall k c, nth_error cs k = Some c -> nth_error row1 k = nth_error c j) ->
  (forall k c, nth_error cs k = Some c -> nth_error row2 k = nth_error c j) ->
  row1 = row2.
Proof.
  intros L1 L2 H1 H2. apply nth_error_ext. intros k.
  destruct (nth_error cs k) as [c|] eqn:Ek.
  - rewrite (H1 _ _ Ek), (H2 _ _ Ek). reflexivity.
  - apply nth_error_None in Ek.
    assert (E1 : nth_error row1 k = None) by (apply nth_error_None; lia).
    assert (E2 : nth_error row2 k = None) by (apply nth_error_None; lia).
    congruence.
Qed.

(** [zip] never looks beyond the shortest channel. *)
Lemma py_zip_firstn (channels : list (list F)) :
  py_zip (map (firstn (shortest channels)) channels) = py_zip channels.
Proof.
  destruct channels as [|c0 rest] eqn:Ecs; [reflexivity|]. rewrite <- Ecs.
  assert (Hne : channels <> []) by (subst; discriminate).
  clear Ecs c0 rest. set (m := shortest channels).
  apply nth_error_ext. intros j.
  destruct (nth_error (py_zip channels) j) as [row|] eqn:E2;
    destruct (nth_error (py_zip (map (firstn m) channels)) j) as [row'|] eqn:E1;
    try reflexivity.
  - f_equal.
    assert (Hj : j < m).
    { unfold m. rewrite <- py_zip_length. apply nth_error_Some. congruence. }
    apply py_zip_nth in E1. destruct E1 as [L1 N1].
    apply py_zip_nth in E2. destruct E2 as [L2 N2].
    rewrite length_map in L1.
    apply row_ext with (cs := channels) (j := j); try assumption.
    intros k c Hk. rewrite (N1 k (firstn m c)).
    + rewrite nth_error_firstn.
      destruct (Nat.ltb_spec j m); [reflexivity | lia].
    + rewrite nth_error_map, Hk. reflexivity.
  - exfalso. apply nth_error_None in E1.
    rewrite py_zip_length in E1. unfold m in E1.
    rewrite shortest_firstn in E1 by assumption.
    assert (j < shortest channels)
      by (rewrite <- py_zip_length; apply nth_error_Some; congruence).
    lia.
  - exfalso. apply nth_error_None in E2. rewrite py_zip_length in E2.
    assert (j < shortest (map (firstn m) channels))
      by (rewrite <- py_zip_length; apply nth_error_Some; congruence).
    unfold m in *. rewrite shortest_firstn in * by assumption. lia.
Qed.

Lemma unequal_lengths_longer (channels : list (list F)) :
  unequal_lengths channels ->
  exists ch, In ch channels /\ shortest channels < length ch.
Proof.
  intros (a & b & Ha & Hb & Hab).
  pose proof (shortest_le _ _ Ha). pose proof (shortest_le _ _ Hb).
  destruct (Nat.eq_dec (length a) (shortest channels)).
  - exists b. split; [assumption | lia].
  - exists a. split; [assumption | lia].
Qed.
End MergeFacts.

(** C5: [k] equal-length channels of length [n] are merged into one
    sequence of length [k * n] in frame-major interleaved order: output
    index [j * k + c] holds [channels[c][j]] for every frame [j] and
    channel [c]; in particular [[1,2,3]] and [[10,20,30]] are merged
    into [[1,10,2,20,3,30]]. *)
Theorem merge_channels_interleaves :
  (forall (F : Type) (HA : Arith F) (channels : list (list F)) (n : nat),
      Forall (fun ch => length ch = n) channels ->
      exists out,
        merge_channels channels = Ok out /\
        length out = length channels * n /\
        forall j c ch,
          j < n -> nth_error channels c = Some ch ->
          nth_error out (j * length channels + c) = nth_error ch j) /\
  merge_channels (F := binary64)
    [[of_int 1; of_int 2; of_int 3]; [of_int 10; of_int 20; of_int 30]]
  = Ok [of_int 1; of_int 10; of_int 2; of_int 20; of_int 3; of_int 30].
Proof.
  split; [|reflexivity].
  intros F HA channels n Hall.
  destruct (merge_channels_layout channels) as (out & Hout & Hlen & Hnth).
  exists out. split; [assumption|].
  destruct channels as [|c0 rest] eqn:Ecs.
  - split; [simpl in *; lia|]. intros j c ch _ Hc. destruct c; discriminate.
  - rewrite <- Ecs in *.
    assert (Hm : shortest channels = n)
      by (apply shortest_uniform; [subst; discriminate | assumption]).
    rewrite Hm in *. split; assumption.
Qed.

Lemma merge_channels_interleaves_witness :
  exists out,
    merge_channels (F := binary64)
      [[of_int 1; of_int 2]; [of_int 3; of_int 4]; [of_int 5; of_int 6]]
    = Ok out /\
    length out = 3 * 2 /\
    forall j c ch,
      j < 2 ->
      nth_error [[of_int 1; of_int 2]; [of_int 3; of_int 4];
                 [of_int 5; of_int 6]] c = Some ch ->
      nth_error out (j * 3 + c) = nth_error ch j.
Proof.
  destruct merge_channels_interleaves as [Hgen _].
  apply (Hgen binary64 _
           [[of_int 1; of_int 2]; [of_int 3; of_int 4]; [of_int 5; of_int 6]]
           2).
  repeat constructor.
Defined.

(** C10: given channels of unequal lengths, [merge_channels] does not
    fail; it returns the frame-major interleaving of the first [m]
    frames of every channel, [m] being the length of the shortest
    channel, and the samples of a longer channel beyond [m] are left
    out. *)
Theorem merge_channels_truncates_to_shortest :
  forall (F : Type) (HA : Arith F) (channels : list (list F)),
    unequal_lengths channels ->
    exists out,
      merge_channels channels = Ok out /\
      length out = length channels * shortest channels /\
      (forall j c ch,
          j < shortest channels -> nth_error channels c = Some ch ->
          nth_error out (j * length channels + c) = nth_error ch j) /\
      (exists ch, In ch channels /\ shortest channels < length ch).
Proof.
  intros F HA channels Hne.
  destruct (merge_channels_layout channels) as (out & Hout & Hlen & Hnth).
  exists out. repeat split; try assumption.
  now apply unequal_lengths_longer.
Qed.

Lemma merge_channels_truncates_to_shortest_witness :
  exists out,
    merge_channels (F := binary64)
      [[of_int 1; of_int 2; of_int 3]; [of_int 10; of_int 20]] = Ok out /\
    length out = 2 * 2.
Proof.
  destruct (@merge_channels_truncates_to_shortest binary64 _
              [[of_int 1; of_int 2; of_int 3]; [of_int 10; of_int 20]])
    as (out & Hout & Hlen & _).
  - exists [of_int 1; of_int 2; of_int 3], [of_int 10; of_int 20].
    simpl. repeat split; auto; try discriminate.
  - exists out. split; [exact Hout | exact Hlen].
Defined.

(** C4, as the code has it: channels of unequal lengths are not
    rejected.  [merge_channels] returns what it returns for the
    channels cut to the length of the shortest one. *)
Theorem merge_channels_unequal_no_error :
  forall (F : Type) (HA : Arith F) (channels : list (list F)),
    unequal_lengths channels ->
    is_err (merge_channels channels) = false /\
    merge_channels channels
    = merge_channels (map (firstn (shortest channels)) channels).
Proof.
  intros F HA channels _. rewrite !merge_channels_eq. split; [reflexivity|].
  now rewrite py_zip_firstn.
Qed.

Lemma merge_channels_unequal_no_error_witness :
  is_err (merge_channels (F := binary64)
            [[of_int 1; of_int 2; of_int 3]; [of_int 10; of_int 20]]) = false.
Proof.
  apply (@merge_channels_unequal_no_error binary64 _
           [[of_int 1; of_int 2; of_int 3]; [of_int 10; of_int 20]]).
  exists [of_int 1; of_int 2; of_int 3], [of_int 10; of_int 20].
  simpl. repeat split; auto; try discriminate.
Defined.

(** C4 as stated fails: two channels of lengths 3 and 2 are merged
    without any error. *)
Lemma merge_channels_unequal_counterexample :
  unequal_lengths
    [[b64_of_int 1; b64_of_int 2; b64_of_int 3];
     [b64_of_int 10; b64_of_int 20]] /\
  merge_channels (F := binary64)
    [[of_int 1; of_int 2; of_int 3]; [of_int 10; of_int 20]]
  = Ok [of_int 1; of_int 10; of_int 2; of_int 20].
Proof.
  split; [|reflexivity].
  exists [b64_of_int 1; b64_of_int 2; b64_of_int 3],
         [b64_of_int 10; b64_of_int 20].
  simpl. repeat split; auto; try discriminate.
Qed.

(** ** Channel separation *)

Section SeparateFacts.
Context {F : Type} `{Arith F}.

(** [xs[k::step][j]] is [xs[k + j*step]]. *)
Lemma stride_nth (xs : list F) (step k j : nat) :
  0 < step ->
  nth_error (stride step k xs) j = nth_error xs (k + j * step).
Proof.
  intros Hstep. revert k j.
  induction xs as [|x rest IH]; intros k j.
  - simpl. destruct j; destruct (k + _); reflexivity.
  - destruct k as [|k']; simpl.
    + destruct j as [|j']; [reflexivity|]. simpl. rewrite IH.
      destruct step as [|p]; [lia|]. simpl. reflexivity.
    + apply IH.
Qed.

Lemma separate_channels_comment_nth (samples : list F) (k c : nat) :
  c < k ->
  nth_error (separate_channels_comment samples (Z.of_nat k)) c
  = Some (stride k c samples).
Proof.
  intros Hc. unfold separate_channels_comment, py_range.
  rewrite Nat2Z.id, nth_error_map, nth_error_seq.
  destruct (Nat.ltb_spec c k); [reflexivity | lia].
Qed.

(** The comprehension of the comment undoes [merge_channels]. *)
Lemma separate_channels_comment_inverts_merge
      (channels : list (list F)) (n : nat) :
  Forall (fun ch => length ch = n) channels ->
  exists samples,
    merge_channels channels = Ok samples /\
    separate_channels_comment samples (Z.of_nat (length channels))
    = channels.
Proof.
  intros Hall.
  destruct (merge_channels_layout channels) as (s & Hs & Hlen & Hnth).
  exists s. split; [assumption|].
  destruct channels as [|c0 rest] eqn:Ecs; [reflexivity|].
  rewrite <- Ecs in *.
  assert (Hne : channels <> []) by (subst; discriminate).
  clear Ecs c0 rest.
  rewrite (shortest_uniform Hne Hall) in *.
  set (k := length channels) in *.
  assert (Hk : 0 < k) by (unfold k; destruct channels; simpl; [congruence | lia]).
  apply nth_error_ext. intros c.
  destruct (nth_error channels c) as [ch|] eqn:Ec.
  - assert (Hc : c < k) by (apply nth_error_Some; congruence).
    rewrite separate_channels_comment_nth by assumption. f_equal.
    apply nth_error_ext. intros j. rewrite stride_nth by assumption.
    assert (Hch : length ch = n).
    { apply nth_error_In in Ec. revert Ec.
      now apply (proj1 (Forall_forall _ _) Hall). }
    destruct (Nat.lt_ge_cases j n) as [Hj|Hj].
    + replace (c + j * k) with (j * k + c) by lia. now apply Hnth.
    + transitivity (@None F).
      * apply nth_error_None. nia.
      * symmetry. apply nth_error_None. lia.
  - apply nth_error_None in Ec. unfold separate_channels_comment, py_range.
    rewrite Nat2Z.id, nth_error_map, nth_error_seq.
    destruct (Nat.ltb_spec c k); [lia | reflexivity].
Qed.
End SeparateFacts.

(** C3 on the code: for two channels of one length of 2 or more,
    separating the merged sequence raises [ValueError] instead of
    returning the two channels: [np.fromiter] is asked to store each
    slice [samples[i::2]] as one float. *)
Theorem separate_channels_rejects_merged :
  forall (F : Type) (HA : Arith F) (a b : list F),
    length a = length b -> 2 <= length a ->
    (samples <- merge_channels [a; b] ;; separate_channels samples 2)
    = Err ValueError.
Proof.
  intros F HA a b Hab Ha.
  destruct a as [|a0 [|a1 a']]; simpl in Ha; try lia.
  destruct b as [|b0 [|b1 b']]; simpl in Hab; try lia.
  rewrite merge_channels_eq. reflexivity.
Qed.

Lemma separate_channels_rejects_merged_witness :
  (samples <- merge_channels (F := binary64)
                [[of_int 1; of_int 2]; [of_int 10; of_int 20]] ;;
   separate_channels samples 2)
  = Err ValueError.
Proof.
  apply (@separate_channels_rejects_merged binary64 _
           [of_int 1; of_int 2] [of_int 10; of_int 20]).
  - reflexivity.
  - simpl. lia.
Defined.

(** ** The 16-bit codec: integers and bytes *)

Lemma list_pair_ind (A : Type) (P : list A -> Prop) :
  P [] -> (forall x, P [x]) -> (forall x y l, P l -> P (x :: y :: l)) ->
  forall l, P l.
Proof.
  intros H0 H1 H2 l.
  enough (P l /\ forall x, P (x :: l)) by tauto.
  induction l as [|y l [IH1 IH2]]; split; auto.
Qed.

Lemma Z_of_byte_of_Z (z : Z) : Z_of_byte (byte_of_Z z) = (z mod 256)%Z.
Proof.
  unfold Z_of_byte, byte_of_Z.
  assert (Hb : (0 <= z mod 256 < 256)%Z) by (apply Z.mod_pos_bound; lia).
  destruct (Byte.of_N (Z.to_N (z mod 256))) as [b|] eqn:E.
  - apply Byte.to_of_N in E. rewrite E. apply Z2N.id. lia.
  - apply Byte.of_N_None_iff in E. lia.
Qed.

Lemma int16_wrap_small (z : Z) :
  (-32768 <= z < 32768)%Z -> int16_wrap z = z.
Proof. intros Hz. unfold int16_wrap. rewrite Z.mod_small by lia. lia. Qed.

Lemma int16_wrap_range (z : Z) : (-32768 <= int16_wrap z < 32768)%Z.
Proof.
  unfold int16_wrap.
  assert ((0 <= (z + 32768) mod 65536 < 65536)%Z)
    by (apply Z.mod_pos_bound; lia).
  lia.
Qed.

Lemma int16_wrap_mod (z : Z) : int16_wrap (z mod 65536) = int16_wrap z.
Proof.
  unfold int16_wrap. f_equal.
  rewrite Zplus_mod_idemp_l. reflexivity.
Qed.

(** Reading back the two bytes written for [v]. *)
Lemma i2_frombytes_tobytes (v : Z) :
  i2_frombytes (byte_of_Z v) (byte_of_Z (Z.shiftr v 8)) = int16_wrap v.
Proof.
  unfold i2_frombytes. rewrite !Z_of_byte_of_Z.
  rewrite Z.shiftr_div_pow2 by lia. change (2 ^ 8)%Z with 256%Z.
  rewrite <- (int16_wrap_mod v). f_equal.
  change 65536%Z with (256 * 256)%Z.
  rewrite Z.rem_mul_r by lia. reflexivity.
Qed.

Lemma np_frombuffer_i2_tobytes (vs : list Z) :
  np_frombuffer_i2 (concat (map i2_tobytes vs)) = Ok (map int16_wrap vs).
Proof.
  induction vs as [|v vs IH]; [reflexivity|].
  cbn [map concat i2_tobytes app np_frombuffer_i2].
  rewrite IH. cbn [bind]. rewrite i2_frombytes_tobytes. reflexivity.
Qed.

Lemma np_frombuffer_i2_parity (buf : list byte) :
  if Nat.even (length buf)
  then exists vs, np_frombuffer_i2 buf = Ok vs /\ 2 * length vs = length buf
  else np_frombuffer_i2 buf = Err ValueError.
Proof.
  induction buf as [|x|x y l IH] using list_pair_ind.
  - exists []. split; reflexivity.
  - reflexivity.
  - cbn [length Nat.even np_frombuffer_i2].
    destruct (Nat.even (length l)).
    + destruct IH as (vs & -> & Hlen). eexists. split; [reflexivity|].
      simpl. lia.
    + rewrite IH. reflexivity.
Qed.

Section CodecFacts.
Context {F : Type} `{Arith F}.

Lemma convert_to_bytes_ints (samples : list F) :
  convert_to_bytes samples
  = concat (map i2_tobytes
              (map (fun s => astype_i2
                               (fmul (np_clip s (of_int (-1)) (of_int 1))
                                     (of_int MAX_INT_SAMPLE_VALUE)))
                   samples)).
Proof. unfold convert_to_bytes. rewrite !map_map. reflexivity. Qed.

Lemma convert_to_bytes_length (samples : list F) :
  length (convert_to_bytes samples) = 2 * length samples.
Proof.
  unfold convert_to_bytes. induction samples as [|s l IH]; [reflexivity|].
  cbn [map concat i2_tobytes app length] in *. rewrite IH. lia.
Qed.

(** What the body of [convert_to_samples] computes on an encoded
    sequence, before it is dropped. *)
Lemma convert_to_samples_local_encoded (samples : list F) :
  convert_to_samples_local (F := F) (convert_to_bytes samples)
  = Ok (map (fun s =>
               fdiv (of_int (astype_i2
                               (fmul (np_clip s (of_int (-1)) (of_int 1))
                                     (of_int MAX_INT_SAMPLE_VALUE))))
                    (of_int MAX_INT_SAMPLE_VALUE))
            samples).
Proof.
  unfold convert_to_samples_local.
  rewrite convert_to_bytes_ints, np_frombuffer_i2_tobytes. cbn [bind].
  rewrite !map_map. f_equal. apply map_ext. intros s.
  unfold astype_i2. rewrite int16_wrap_small by apply int16_wrap_range.
  reflexivity.
Qed.
End CodecFacts.

(** C8 on the code: a buffer of odd length is rejected by
    [np.frombuffer] ([ValueError]); on a buffer of even length
    [convert_to_samples] returns [None], not the decoded sequence. *)
Theorem convert_to_samples_returns_None :
  forall (F : Type) (HA : Arith F) (bytes : list byte),
    convert_to_samples (F := F) bytes
    = if Nat.even (length bytes) then Ok None else Err ValueError.
Proof.
  intros F HA bytes. unfold convert_to_samples, convert_to_samples_local.
  pose proof (np_frombuffer_i2_parity bytes) as Hp.
  destruct (Nat.even (length bytes)).
  - destruct Hp as (vs & -> & _). reflexivity.
  - rewrite Hp. reflexivity.
Qed.

(** C1 on the code: decoding an encoded sequence yields [None] for
    every sample sequence, so nothing can be compared with the
    input. *)
Theorem decode_encode_returns_None :
  forall (F : Type) (HA : Arith F) (x : list F),
    convert_to_samples (F := F) (convert_to_bytes x) = Ok None.
Proof.
  intros F HA x. unfold convert_to_samples.
  rewrite convert_to_samples_local_encoded. reflexivity.
Qed.

(** C6, as the code has it: the samples 1.0, -1.0 and 0.0 are clipped,
    scaled and truncated to the 16-bit integers 32767, -32767 and 0,
    whose little-endian bytes are FF 7F, 01 80 and 00 00. *)
Theorem convert_to_bytes_scenario :
  map (fun s : binary64 =>
         astype_i2 (fmul (np_clip s (of_int (-1)) (of_int 1))
                         (of_int MAX_INT_SAMPLE_VALUE)))
      [of_int 1; of_int (-1); of_int 0]
  = [32767; -32767; 0]%Z /\
  convert_to_bytes (F := binary64) [of_int 1; of_int (-1); of_int 0]
  = [xff; x7f; x01; x80; x00; x00].
Proof. split; vm_compute; reflexivity. Qed.

(** C6 as stated fails: the buffer is not 7F FF 81 FF 00 00. *)
Lemma convert_to_bytes_scenario_counterexample :
  convert_to_bytes (F := binary64) [of_int 1; of_int (-1); of_int 0]
  <> [x7f; xff; x81; xff; x00; x00].
Proof. vm_compute. discriminate. Qed.

(** Truncation toward zero on values that are not integers:
    0.5 * 32767 = 16383.5 becomes 16383 and -16383.5 becomes -16383. *)
Lemma convert_to_bytes_truncates :
  convert_to_bytes (F := binary64)
    [fdiv (of_int 1) (of_int 2); fdiv (of_int (-1)) (of_int 2)]
  = [xff; x3f; x01; xc0].
Proof. vm_compute. reflexivity. Qed.

(** The local [samples] of [convert_to_samples] on the encoding of 0.5:
    16383 / 32767, which the function then drops. *)
Lemma local_samples_half_binary64 :
  convert_to_samples_local (F := binary64)
    (convert_to_bytes (F := binary64) [fdiv (of_int 1) (of_int 2)])
  = Ok [fdiv (of_int 16383) (of_int 32767)] /\
  convert_to_samples (F := binary64)
    (convert_to_bytes (F := binary64) [fdiv (of_int 1) (of_int 2)])
  = Ok None.
Proof. split; vm_compute; reflexivity. Qed.

(** ** The codec over exact reals *)

Section CodecReal.
Local Open Scope R_scope.

Lemma np_clip_R_inside (x : R) :
  -1 <= x <= 1 -> np_clip x (of_int (-1)) (of_int 1) = x.
Proof.
  intros Hx. unfold np_clip. cbn [fisnan fltb of_int R_arith orb].
  unfold R_ltb.
  destruct (Rlt_dec (-1) x) as [H1|H1];
    [destruct (Rlt_dec x 1) | destruct (Rlt_dec (-1) 1)]; lra.
Qed.

(** Truncation toward zero moves a real by less than one, toward
    zero. *)
Lemma R_to_int_bounds (y : R) :
  Rabs (IZR (R_to_int y) - y) < 1 /\ Rabs (IZR (R_to_int y)) <= Rabs y.
Proof.
  unfold R_to_int. destruct (Rle_dec 0 y) as [Hy|Hy].
  - pose proof (Zfloor_bound y) as [Hl Hu].
    assert (H0 : (0 <= Zfloor y)%Z) by (apply Zfloor_lub; simpl; lra).
    apply IZR_le in H0.
    split; rewrite ?Rabs_left1, ?(Rabs_right y), ?Rabs_right by lra; lra.
  - unfold Zceil. pose proof (Zfloor_bound (- y)) as [Hl Hu].
    assert (H0 : (0 <= Zfloor (- y))%Z) by (apply Zfloor_lub; simpl; lra).
    apply IZR_le in H0. rewrite opp_IZR.
    split.
    + rewrite Rabs_right by lra. lra.
    + rewrite !Rabs_left1 by lra. lra.
Qed.

Lemma astype_i2_R_scaled (x : R) :
  -1 <= x <= 1 ->
  astype_i2 (fmul x (of_int MAX_INT_SAMPLE_VALUE))
  = R_to_int (x * 32767).
Proof.
  intros Hx. unfold astype_i2. cbn [to_int fmul of_int R_arith].
  change MAX_INT_SAMPLE_VALUE with 32767%Z.
  apply int16_wrap_small.
  destruct (R_to_int_bounds (x * 32767)) as [_ Hb].
  assert (Hy : Rabs (x * 32767) <= 32767)
    by (apply Rabs_le; lra).
  assert (Hk : Rabs (IZR (R_to_int (x * 32767))) <= 32767) by lra.
  assert (Hk' : -32767 <= IZR (R_to_int (x * 32767)) <= 32767)
    by (revert Hk; unfold Rabs; destruct (Rcase_abs _); lra).
  destruct Hk' as [Hk1 Hk2].
  apply le_IZR in Hk1, Hk2. lia.
Qed.

(** X19: the value that [convert_to_samples] computes for an encoded
    sequence within [-1, 1], and then drops, is within one
    quantization step of the input. *)
Lemma local_samples_within_one_step (x : list R) :
  Forall (fun s => -1 <= s <= 1) x ->
  exists y,
    convert_to_samples_local (F := R) (convert_to_bytes x) = Ok y /\
    Forall2 (fun s d => Rabs (d - s) <= 1 / IZR MAX_INT_SAMPLE_VALUE) x y.
Proof.
  intros Hx. eexists. split; [apply convert_to_samples_local_encoded|].
  induction Hx as [|s l Hs _ IH]; [constructor|].
  cbn [map]. constructor; [|exact IH].
  rewrite np_clip_R_inside by assumption.
  rewrite astype_i2_R_scaled by assumption.
  cbn [fdiv of_int R_arith]. change MAX_INT_SAMPLE_VALUE with 32767%Z.
  destruct (R_to_int_bounds (s * 32767)) as [Hq _].
  set (k := IZR (R_to_int (s * 32767))) in *.
  replace (k / 32767 - s) with ((k - s * 32767) / 32767) by (field; lra).
  unfold Rdiv at 1. rewrite Rabs_mult, (Rabs_right (/ 32767)) by lra.
  apply Rabs_def2 in Hq. assert (Rabs (k - s * 32767) <= 1)
    by (apply Rabs_le; lra).
  nra.
Qed.
End CodecReal.

(** ** Normalisation *)

Section NormalizeFloat.
Implicit Types (zs : list binary64) (t : binary64).

Lemma fold_maximum_zeros zs :
  Forall (fun z => z = S754_zero false) zs ->
  fold_left np_maximum zs (S754_zero false) = S754_zero false.
Proof.
  induction 1 as [|z zs -> _ IH]; [reflexivity|]. exact IH.
Qed.

Lemma abs_zeros zs :
  Forall (fun z => b64_is_zero z = true) zs ->
  Forall (fun z => z = S754_zero false) (map fabs zs).
Proof.
  induction 1 as [|z zs Hz _ IH]; constructor; [|exact IH].
  destruct z; try discriminate. reflexivity.
Qed.

(** Dividing by a zero peak gives an infinity or a NaN, and its
    product with a zero sample is a NaN. *)
Lemma zero_peak_sample t z :
  b64_is_zero z = true -> fmul (fdiv t (S754_zero false)) z = S754_nan.
Proof.
  destruct z; try discriminate. intros _. destruct t; reflexivity.
Qed.

Lemma normalize_zeros zs t :
  zs <> [] -> Forall (fun z => b64_is_zero z = true) zs ->
  normalize zs t = Ok (map (fun _ => S754_nan) zs).
Proof.
  intros Hne Hz. destruct zs as [|z0 zs']; [congruence|].
  unfold normalize. cbn [map np_max].
  assert (E : fold_left np_maximum (map fabs zs') (fabs z0)
              = S754_zero false).
  { inversion Hz as [|? ? Hz0 Hz']; subst.
    destruct z0; try discriminate.
    apply fold_maximum_zeros. now apply abs_zeros. }
  rewrite E. cbn [bind]. f_equal.
  change (map (fun s => fmul (fdiv t (S754_zero false)) s) (z0 :: zs')
          = map (fun _ => S754_nan) (z0 :: zs')).
  clear - Hz. induction Hz as [|z l Hz0 _ IH]; [reflexivity|].
  cbn [map]. rewrite IH. f_equal. now apply zero_peak_sample.
Qed.
End NormalizeFloat.

Section NormalizeReal.
Local Open Scope R_scope.
Implicit Types (xs : list R).

Lemma np_maximum_R (a b : R) : np_maximum a b = Rmax a b.
Proof.
  unfold np_maximum. cbn [fisnan fleb R_arith orb]. unfold R_leb, Rmax.
  destruct (Rle_dec b a), (Rle_dec a b); lra.
Qed.

Lemma fold_maximum_ge xs (x : R) :
  x <= fold_left np_maximum xs x /\
  Forall (fun y => y <= fold_left np_maximum xs x) xs.
Proof.
  revert x. induction xs as [|y l IH]; intros x.
  - split; [simpl; lra | constructor].
  - cbn [fold_left]. destruct (IH (np_maximum x y)) as [H1 H2].
    rewrite np_maximum_R in *.
    pose proof (Rmax_l x y). pose proof (Rmax_r x y).
    split; [lra|]. constructor; [lra | assumption].
Qed.

Lemma fold_maximum_scale xs (k x : R) :
  0 <= k ->
  fold_left np_maximum (map (Rmult k) xs) (k * x)
  = k * fold_left np_maximum xs x.
Proof.
  intros Hk. revert x. induction xs as [|y l IH]; intros x; [reflexivity|].
  cbn [map fold_left]. rewrite <- IH. f_equal.
  rewrite !np_maximum_R. now apply RmaxRmult.
Qed.

Lemma np_max_abs_positive xs :
  Exists (fun s => s <> 0) xs ->
  exists peak, np_max (map Rabs xs) = Ok peak /\ 0 < peak.
Proof.
  intros Hex. destruct xs as [|x0 l]; [inversion Hex|].
  cbn [map np_max]. eexists. split; [reflexivity|].
  destruct (fold_maximum_ge (map Rabs l) (Rabs x0)) as [H1 H2].
  inversion Hex as [? ? Hx|? ? Hl]; subst.
  - pose proof (Rabs_pos_lt _ Hx). lra.
  - apply Exists_exists in Hl. destruct Hl as (s & Hin & Hs).
    pose proof (Rabs_pos_lt _ Hs).
    assert (Rabs s <= fold_left np_maximum (map Rabs l) (Rabs x0)).
    { revert H2. rewrite Forall_forall. intros H2. apply H2.
      now apply in_map. }
    lra.
Qed.

(** With a non-zero peak the rescaled sequence peaks at [|target|]. *)
Lemma normalize_R_peak xs (target : R) :
  Exists (fun s => s <> 0) xs ->
  exists peak out,
    np_max (map Rabs xs) = Ok peak /\
    normalize xs target = Ok out /\
    out = map (fun s => target / peak * s) xs /\
    np_max (map Rabs out) = Ok (Rabs target).
Proof.
  intros Hex. destruct (np_max_abs_positive Hex) as (peak & Hpeak & Hpos).
  exists peak, (map (fun s => target / peak * s) xs).
  split; [exact Hpeak|]. split.
  { unfold normalize. cbn [fabs R_arith]. rewrite Hpeak. reflexivity. }
  split; [reflexivity|].
  destruct xs as [|x0 l]; [inversion Hex|].
  cbn [map np_max] in Hpeak |- *. injection Hpeak as Hp. f_equal.
  set (k := Rabs (target / peak)).
  assert (Hk : 0 <= k) by apply Rabs_pos.
  rewrite map_map.
  rewrite (map_ext (fun s => Rabs (target / peak * s))
                   (fun s => k * Rabs s))
    by (intros; apply Rabs_mult).
  rewrite <- (map_map Rabs (Rmult k)).
  rewrite Rabs_mult. fold k.
  rewrite fold_maximum_scale by assumption.
  rewrite Hp. unfold k, Rdiv.
  rewrite Rabs_mult, (Rabs_right (/ peak)).
  - field. lra.
  - apply Rle_ge. left. now apply Rinv_0_lt_compat.
Qed.
End NormalizeReal.

(** C2, as the code has it: [normalize] has no guard for a zero peak.
    On a non-empty sequence of zeros it returns a sequence of NaN, for
    any target; the only failure is that of [np.max] on an empty
    sequence.  When some sample is not zero, it returns
    [samples * (target / peak)], whose peak absolute value is
    [|target|] in exact arithmetic. *)
Theorem normalize_unguarded :
  (forall (zs : list binary64) (target : binary64),
      zs <> [] -> Forall (fun z => b64_is_zero z = true) zs ->
      normalize zs target = Ok (map (fun _ => S754_nan) zs)) /\
  (forall (F : Type) (HA : Arith F) (target : F),
      normalize [] target = Err ValueError) /\
  (forall (xs : list R) (target : R),
      Exists (fun s => s <> 0%R) xs ->
      exists peak out,
        np_max (map Rabs xs) = Ok peak /\
        normalize xs target = Ok out /\
        out = map (fun s => (target / peak * s)%R) xs /\
        np_max (map Rabs out) = Ok (Rabs target)).
Proof.
  split; [|split].
  - intros zs target. apply normalize_zeros.
  - reflexivity.
  - intros xs target. apply normalize_R_peak.
Qed.

Lemma normalize_unguarded_witness :
  normalize [S754_zero false; S754_zero true] (b64_of_int 1)
  = Ok [S754_nan; S754_nan] /\
  exists peak out,
    np_max (map Rabs [3; -4]%R) = Ok peak /\
    normalize [3; -4]%R 2%R = Ok out /\
    out = map (fun s => (2 / peak * s)%R) [3; -4]%R /\
    np_max (map Rabs out) = Ok (Rabs 2).
Proof.
  destruct normalize_unguarded as (Hzero & _ & Hpeak). split.
  - apply (Hzero [S754_zero false; S754_zero true] (b64_of_int 1)).
    + discriminate.
    + repeat constructor.
  - apply (Hpeak [3; -4]%R 2%R).
    apply Exists_cons_hd. lra.
Defined.

(** C2 as stated fails: an all-zero sequence is normalised to NaN
    without any error, and a negative target gives a peak of the
    opposite sign ([normalize([1.0], -0.5)] is [[-0.5]], of peak 0.5). *)
Lemma normalize_counterexample :
  normalize [b64_of_int 0; b64_of_int 0] (fdiv (of_int 89) (of_int 100))
  = Ok [S754_nan; S754_nan] /\
  exists out : list binary64,
    normalize [b64_of_int 1] (fdiv (of_int (-1)) (of_int 2)) = Ok out /\
    out = [fdiv (of_int (-1)) (of_int 2)] /\
    np_max (map fabs out) = Ok (fdiv (of_int 1) (of_int 2)) /\
    feqb (fdiv (of_int 1) (of_int 2) : binary64)
         (fdiv (of_int (-1)) (of_int 2)) = false.
Proof.
  split; [vm_compute; reflexivity|].
  eexists. split; [vm_compute; reflexivity|].
  repeat split; vm_compute; reflexivity.
Qed.

(** ** Time base *)

Lemma set_last_app (A : Type) (l : list A) (a v : A) :
  set_last (l ++ [a]) v = l ++ [v].
Proof.
  unfold set_last. destruct (l ++ [a]) eqn:E.
  - now destruct l.
  - rewrite <- E, removelast_last. reflexivity.
Qed.

Lemma zrange_from_seq (len s : nat) :
  zrange_from (Z.of_nat s) len = map Z.of_nat (seq s len).
Proof.
  revert s. induction len as [|len IH]; intros s; [reflexivity|].
  cbn [zrange_from seq map]. f_equal.
  rewrite <- IH. f_equal. lia.
Qed.

(** A float is never accepted as a number of samples. *)
Lemma generate_sample_time_points_float
      (F : Type) (HA : Arith F) (x : F) :
  generate_sample_time_points (PyFloat x) = Err TypeError.
Proof. reflexivity. Qed.

Section TimeBaseReal.
Local Open Scope R_scope.

Lemma time_step_pos (d : Z) : (0 < d)%Z -> 0 < time_step d.
Proof.
  intros Hd. unfold time_step, SAMPLING_FREQ.
  apply Rdiv_lt_0_compat; apply IZR_lt; lia.
Qed.

(** On a whole number of seconds the time points are the multiples
    of the spacing. *)
Lemma generate_sample_time_points_int (d : Z) :
  (0 < d)%Z ->
  generate_sample_time_points (F := R) (PyInt d)
  = Ok (map (fun i => IZR (Z.of_nat i) * time_step d)
            (seq 0 (Z.to_nat (d * SAMPLING_FREQ)))).
Proof.
  intros Hd. pose proof (time_step_pos Hd) as Hstep.
  unfold generate_sample_time_points, np_linspace.
  cbn [py_mul_int operator_index bind to_float of_int fmul fsub fdiv fadd
       feqb R_arith].
  set (n := (d * SAMPLING_FREQ)%Z) in *.
  assert (Hn : (44100 <= n)%Z) by (unfold n, SAMPLING_FREQ; lia).
  rewrite (proj2 (Z.ltb_ge n 0)) by lia.
  rewrite (proj2 (Z.ltb_lt 0 (n - 1))) by lia.
  rewrite (proj2 (Z.ltb_lt 1 n)) by lia.
  replace (IZR d * 1 - 0 * 1) with (IZR d) by ring.
  change (IZR d / IZR (n - 1)) with (time_step d). unfold R_eqb.
  destruct (Req_dec_T (time_step d) 0) as [E|_]; [lra|].
  f_equal. unfold np_arange. rewrite (zrange_from_seq _ 0), !map_map.
  replace (Z.to_nat n) with (S (Z.to_nat (n - 1))) by lia.
  rewrite seq_S, !map_app. cbn [map Nat.add of_int R_arith].
  rewrite set_last_app. f_equal.
  - apply map_ext. intros i. ring.
  - f_equal. rewrite Z2Nat.id by lia. unfold time_step. fold n. field.
    apply not_0_IZR. lia.
Qed.

Lemma multiples_increasing (s : R) (N : nat) :
  0 < s ->
  strictly_increasing (map (fun i => IZR (Z.of_nat i) * s) (seq 0 N)).
Proof.
  intros Hs i j a b Hij Ha Hb.
  rewrite nth_error_map, nth_error_seq in Ha, Hb.
  destruct (Nat.ltb i N); [|discriminate].
  destruct (Nat.ltb j N); [|discriminate].
  cbn in Ha, Hb. injection Ha as <-. injection Hb as <-.
  apply Rmult_lt_compat_r; [assumption|]. apply IZR_lt. lia.
Qed.
End TimeBaseReal.

(** The same on binary64, computed for one second. *)
Lemma time_points_one_second_binary64 : b64_time_points_ok 1 = true.
Proof. vm_compute. reflexivity. Qed.

(** X20: over exact reals, for a whole number [d > 0] of seconds
    given as an int, [generate_sample_time_points] returns exactly
    [d * SAMPLING_FREQ] values, evenly spaced (the value of index [i]
    is [i * d / (d * SAMPLING_FREQ - 1)]), strictly increasing, the
    first 0 and the last [d]. *)
Theorem generate_sample_time_points_whole_seconds :
  forall d : Z,
    (0 < d)%Z ->
    exists ts : list R,
      generate_sample_time_points (PyInt d) = Ok ts /\
      length ts = Z.to_nat (d * SAMPLING_FREQ) /\
      (forall i t,
          nth_error ts i = Some t ->
          t = (IZR (Z.of_nat i) * (IZR d / IZR (d * SAMPLING_FREQ - 1)))%R) /\
      strictly_increasing ts /\
      nth_error ts 0 = Some 0%R /\
      nth_error ts (length ts - 1) = Some (IZR d).
Proof.
  intros d Hd. eexists. split; [now apply generate_sample_time_points_int|].
  set (N := Z.to_nat (d * SAMPLING_FREQ)).
  assert (HN : N = S (Z.to_nat (d * SAMPLING_FREQ - 1)))
    by (unfold N, SAMPLING_FREQ; lia).
  rewrite length_map, length_seq. split; [reflexivity|].
  split.
  { intros i t Hi. rewrite nth_error_map, nth_error_seq in Hi.
    destruct (Nat.ltb i N); [|discriminate].
    cbn in Hi. injection Hi as <-. reflexivity. }
  split; [apply multiples_increasing; now apply time_step_pos|].
  rewrite !nth_error_map, !nth_error_seq.
  destruct (Nat.ltb_spec 0 N); [|lia].
  destruct (Nat.ltb_spec (N - 1) N); [|lia].
  cbn [option_map Nat.add]. split; f_equal.
  - simpl. ring.
  - rewrite HN. replace (S (Z.to_nat (d * SAMPLING_FREQ - 1)) - 1)%nat
      with (Z.to_nat (d * SAMPLING_FREQ - 1)) by lia.
    rewrite Z2Nat.id by (unfold SAMPLING_FREQ; lia).
    unfold time_step. field. apply not_0_IZR. unfold SAMPLING_FREQ. lia.
Qed.

Lemma generate_sample_time_points_whole_seconds_witness :
  exists ts : list R,
    generate_sample_time_points (PyInt 1) = Ok ts /\
    length ts = Z.to_nat (1 * SAMPLING_FREQ) /\
    (forall i t,
        nth_error ts i = Some t ->
        t = (IZR (Z.of_nat i) * (IZR 1 / IZR (1 * SAMPLING_FREQ - 1)))%R) /\
    strictly_increasing ts /\
    nth_error ts 0 = Some 0%R /\
    nth_error ts (length ts - 1) = Some (IZR 1).
Proof.
  apply (@generate_sample_time_points_whole_seconds 1). lia.
Defined.

(** C7 on the code: a float duration is never accepted.  The number of
    samples [duration * SAMPLING_FREQ] is then a float, which
    [np.linspace] rejects with [TypeError].  So fail the durations
    that [main] itself passes: 30.0 in [sawtooth(220, 0.9, 30.0)] and
    10.0 for the chord, where 1323000 and 441000 time points are
    expected. *)
Theorem generate_sample_time_points_rejects_floats :
  (forall (F : Type) (HA : Arith F) (duration : F),
      generate_sample_time_points (PyFloat duration) = Err TypeError) /\
  generate_sample_time_points (F := binary64) (PyFloat (of_int 30))
  = Err TypeError /\
  sawtooth (F := binary64)
    (of_int 220) (fdiv (of_int 9) (of_int 10)) (PyFloat (of_int 30))
  = Err TypeError /\
  generate_sample_time_points (F := binary64) (PyFloat (of_int 10))
  = Err TypeError.
Proof. repeat split. Qed.

(** ** Sine wave *)

(** C9: for every frequency [f > 0], amplitude [A] and duration, when
    the time points [t] exist the sample of index [i] of
    [sine f A duration] is [A * sin (2 pi f t[i])] and its magnitude
    does not exceed [|A|]; when they do not, [sine] fails the same
    way and has no sample. *)
Theorem sine_bounded_by_amplitude :
  forall (f A : R) (duration : pynum),
    (0 < f)%R ->
    match generate_sample_time_points duration with
    | Ok ts =>
        exists ys,
          sine f A duration = Ok ys /\
          length ys = length ts /\
          forall i y,
            nth_error ys i = Some y ->
            (Rabs y <= Rabs A)%R /\
            exists t,
              nth_error ts i = Some t /\ y = (A * sin (f * 2 * PI * t))%R
    | Err e => sine f A duration = Err e
    end.
Proof.
  intros f A duration _. unfold sine.
  destruct (generate_sample_time_points duration) as [ts|e];
    [|reflexivity].
  cbn [bind]. eexists. split; [reflexivity|].
  rewrite length_map. split; [reflexivity|].
  intros i y Hy. rewrite nth_error_map in Hy.
  destruct (nth_error ts i) as [t|]; [|discriminate].
  injection Hy as <-. cbn [fmul fsin fpi of_int R_arith R_trig].
  split; [|exists t; split; reflexivity].
  rewrite Rabs_mult. rewrite <- (Rmult_1_r (Rabs A)) at 2.
  apply Rmult_le_compat_l; [apply Rabs_pos|].
  apply Rabs_le. pose proof (SIN_bound (f * 2 * PI * t)). lra.
Qed.

Lemma sine_bounded_by_amplitude_witness :
  exists ys : list R,
    sine 440%R 1%R (PyInt 1) = Ok ys /\
    length ys = Z.to_nat (1 * SAMPLING_FREQ) /\
    forall i y, nth_error ys i = Some y -> (Rabs y <= Rabs 1)%R.
Proof.
  assert (Hf : (0 < 440)%R) by lra.
  pose proof (@sine_bounded_by_amplitude 440%R 1%R (PyInt 1) Hf) as Hs.
  rewrite (@generate_sample_time_points_int 1) in Hs by lia.
  destruct Hs as (ys & Hys & Hlen & Hb).
  exists ys. split; [exact Hys|]. split.
  - rewrite Hlen, length_map, length_seq. reflexivity.
  - intros i y Hy. exact (proj1 (Hb i y Hy)).
Defined.


(** * Further properties of the module *)

(** ** Time base: edges and count for any arithmetic *)

Section TimeBaseAny.
Context {F : Type} `{Arith F}.

Lemma length_zrange_from (len : nat) (start : Z) :
  length (zrange_from start len) = len.
Proof.
  revert start. induction len as [|len IH]; intros start; [reflexivity|].
  simpl. now rewrite IH.
Qed.

Lemma length_set_last (A : Type) (y : list A) (v : A) :
  length (set_last y v) = length y.
Proof.
  destruct y as [|a l] using rev_ind; [reflexivity|].
  rewrite set_last_app, !length_app. reflexivity.
Qed.

Lemma last_set_last (A : Type) (y : list A) (v : A) :
  y <> [] -> nth_error (set_last y v) (length y - 1) = Some v.
Proof.
  destruct y as [|a l] using rev_ind; [congruence|]. intros _.
  rewrite set_last_app, length_app. cbn [length].
  rewrite nth_error_app2 by lia.
  replace (length l + 1 - 1 - length l) with 0 by lia. reflexivity.
Qed.

(** [np.linspace] returns [num] values, and for more than one value
    the last one is [stop] itself. *)
Lemma np_linspace_count (start stop : pynum) (n : Z) :
  (0 <= n)%Z ->
  exists ts,
    np_linspace start stop (PyInt n) = Ok ts /\
    length ts = Z.to_nat n /\
    ((1 < n)%Z ->
     nth_error ts (length ts - 1)
     = Some (fmul (to_float stop) (of_int 1))).
Proof.
  intros Hn. unfold np_linspace. cbn [operator_index bind].
  rewrite (proj2 (Z.ltb_ge n 0)) by lia.
  set (y := map _ (if (0 <? n - 1)%Z then _ else _)).
  assert (Hy : length y = Z.to_nat n).
  { unfold y. rewrite length_map.
    destruct (0 <? n - 1)%Z; [destruct (feqb _ _)|];
      rewrite length_map; unfold np_arange;
      rewrite length_map; apply length_zrange_from. }
  eexists. split; [reflexivity|]. split.
  - destruct (1 <? n)%Z; [rewrite length_set_last|]; exact Hy.
  - intros H1. rewrite (proj2 (Z.ltb_lt 1 n)) by lia.
    rewrite length_set_last. apply last_set_last.
    intros E. rewrite E in Hy. simpl in Hy. lia.
Qed.
(** The time points of an int duration: their count and the last
    one. *)
Lemma time_points_count (d : Z) :
  (0 <= d)%Z ->
  exists ts : list F,
    generate_sample_time_points (PyInt d) = Ok ts /\
    length ts = Z.to_nat (d * SAMPLING_FREQ) /\
    ((0 < d)%Z ->
     nth_error ts (length ts - 1) = Some (fmul (of_int d) (of_int 1))).
Proof.
  intros Hd. unfold generate_sample_time_points. cbn [py_mul_int].
  destruct (np_linspace_count (PyInt 0) (PyInt d) (n := d * SAMPLING_FREQ))
    as (ts & Hts & Hlen & Hlast); [unfold SAMPLING_FREQ; lia|].
  exists ts. split; [exact Hts|]. split; [exact Hlen|].
  intros Hpos. apply Hlast. unfold SAMPLING_FREQ. lia.
Qed.
End TimeBaseAny.

(** X1: the time base has three edges, whatever the arithmetic: a
    negative int duration is rejected with [ValueError] (negative
    number of samples), a duration of 0 gives no time point at all, and
    a float duration is rejected with [TypeError]. *)
Theorem generate_sample_time_points_edges :
  forall (F : Type) (HA : Arith F),
    (forall d : Z,
        (d < 0)%Z ->
        generate_sample_time_points (F := F) (PyInt d) = Err ValueError) /\
    generate_sample_time_points (F := F) (PyInt 0) = Ok [] /\
    (forall x : F, generate_sample_time_points (PyFloat x) = Err TypeError).
Proof.
  intros F HA. split; [|split]; [|reflexivity|reflexivity].
  intros d Hd. unfold generate_sample_time_points, np_linspace.
  cbn [py_mul_int operator_index bind].
  rewrite (proj2 (Z.ltb_lt (d * SAMPLING_FREQ) 0))
    by (unfold SAMPLING_FREQ; lia).
  reflexivity.
Qed.

Lemma generate_sample_time_points_edges_witness :
  generate_sample_time_points (F := binary64) (PyInt (-2)) = Err ValueError.
Proof.
  destruct (generate_sample_time_points_edges binary64_arith) as [Hneg _].
  apply (Hneg (-2)%Z). lia.
Defined.

(** X2: for an int duration [d >= 0] and any arithmetic, the time base
    has exactly [d * SAMPLING_FREQ] points, and for [d > 0] the last
    one is the duration itself converted to a float (times 1.0), not a
    computed multiple of the spacing. *)
Theorem generate_sample_time_points_count :
  forall (F : Type) (HA : Arith F) (d : Z),
    (0 <= d)%Z ->
    exists ts : list F,
      generate_sample_time_points (PyInt d) = Ok ts /\
      length ts = Z.to_nat (d * SAMPLING_FREQ) /\
      ((0 < d)%Z ->
       nth_error ts (length ts - 1) = Some (fmul (of_int d) (of_int 1))).
Proof. intros F HA d Hd. now apply time_points_count. Qed.

Lemma generate_sample_time_points_count_witness :
  exists ts : list binary64,
    generate_sample_time_points (PyInt 2) = Ok ts /\
    length ts = Z.to_nat (2 * SAMPLING_FREQ).
Proof.
  destruct (@generate_sample_time_points_count binary64 _ 2%Z)
    as (ts & Hts & Hlen & _); [lia|].
  exists ts. split; [exact Hts | exact Hlen].
Defined.

(** ** Generators: one sample per time point *)

Section GeneratorsAny.
Context {F : Type} `{Arith F} `{Trig F} `{Floor F}.

Lemma combine_map_same (A B C : Type) (g : A -> B) (h : A -> C) (l : list A) :
  combine (map g l) (map h l) = map (fun a => (g a, h a)) l.
Proof. induction l as [|a l IH]; [reflexivity|]. simpl. now rewrite IH. Qed.

(** Adding two signals computed from the same time points. *)
Lemma np_add_out_same (g h : F -> F) (ts : list F) :
  np_add_out (map g ts) (map h ts) = Ok (map (fun t => fadd (g t) (h t)) ts).
Proof.
  unfold np_add_out. rewrite !length_map, Nat.eqb_refl.
  rewrite combine_map_same, map_map. reflexivity.
Qed.

Lemma add_overtones_samplewise
      (root_freq amplitude : F) (overtones : list (F * F))
      (duration : pynum) (ts : list F) (g : F -> F) :
  generate_sample_time_points duration = Ok ts ->
  add_overtones root_freq amplitude overtones duration (map g ts)
  = Ok (map (fun t =>
               fold_left
                 (fun acc p =>
                    fadd acc
                         (fmul (fmul amplitude (snd p))
                               (fsin (fmul (fmul (fmul (fmul root_freq (fst p))
                                                       (of_int 2)) fpi) t))))
                 overtones (g t))
            ts).
Proof.
  intros Hts. revert g.
  induction overtones as [|[freq_factor amp_factor] rest IH]; intros g.
  - reflexivity.
  - cbn [add_overtones]. unfold sine at 1. rewrite Hts. cbn [bind].
    rewrite np_add_out_same. cbn [bind]. rewrite IH. reflexivity.
Qed.
End GeneratorsAny.

(** X3: [sine], [square] and [sawtooth] return exactly one sample per
    time point and fail exactly as the time base fails, whatever the
    frequency, the amplitude and the arithmetic. *)
Theorem simple_generators_follow_time_base :
  forall (F : Type) (HA : Arith F) (HT : Trig F) (HF : Floor F)
         (freq amplitude : F) (duration : pynum),
    match generate_sample_time_points duration with
    | Ok ts =>
        (exists ys, sine freq amplitude duration = Ok ys /\
                    length ys = length ts) /\
        (exists ys, square freq amplitude duration = Ok ys /\
                    length ys = length ts) /\
        (exists ys, sawtooth freq amplitude duration = Ok ys /\
                    length ys = length ts)
    | Err e =>
        sine freq amplitude duration = Err e /\
        square freq amplitude duration = Err e /\
        sawtooth freq amplitude duration = Err e
    end.
Proof.
  intros F HA HT HF freq amplitude duration.
  unfold square, sawtooth, sine.
  destruct (generate_sample_time_points duration) as [ts|e]; cbn [bind].
  - repeat split; eexists; (split; [reflexivity|]);
      rewrite ?length_map; reflexivity.
  - repeat split.
Qed.

(** X4: the array-at-a-time loop of [sine_with_overtones] computes, at
    every time point, the fundamental plus the overtones added in the
    order of the list; it fails exactly as the time base fails, and no
    overtone can make the in-place addition fail. *)
Theorem sine_with_overtones_samplewise :
  forall (F : Type) (HA : Arith F) (HT : Trig F)
         (root_freq amplitude : F) (overtones : list (F * F))
         (duration : pynum),
    sine_with_overtones root_freq amplitude overtones duration
    = match generate_sample_time_points duration with
      | Ok ts => Ok (map (overtone_sample root_freq amplitude overtones) ts)
      | Err e => Err e
      end.
Proof.
  intros F HA HT root_freq amplitude overtones duration.
  unfold sine_with_overtones, sine at 1.
  destruct (generate_sample_time_points duration) as [ts|e] eqn:Hts;
    [|reflexivity].
  cbn [bind]. rewrite add_overtones_samplewise with (ts := ts) by exact Hts.
  reflexivity.
Qed.

(** ** Generators over exact reals *)

Section GeneratorsReal.
Local Open Scope R_scope.

(** Time points of an int duration: their count, and 0 first. *)
Lemma time_points_R (d : Z) :
  (0 <= d)%Z ->
  exists ts : list R,
    generate_sample_time_points (PyInt d) = Ok ts /\
    length ts = Z.to_nat (d * SAMPLING_FREQ) /\
    ((0 < d)%Z -> exists rest, ts = 0 :: rest).
Proof.
  intros Hd.
  destruct (time_points_count (F := R) Hd) as (ts & Hts & Hlen & _).
  exists ts. split; [exact Hts|]. split; [exact Hlen|].
  intros Hpos. rewrite generate_sample_time_points_int in Hts by assumption.
  injection Hts as <-.
  replace (Z.to_nat (d * SAMPLING_FREQ))
    with (S (Z.to_nat (d * SAMPLING_FREQ - 1)))
    by (unfold SAMPLING_FREQ; lia).
  cbn [seq map]. eexists. f_equal. simpl. ring.
Qed.

Lemma np_sign_R (x : R) :
  (0 < x /\ np_sign x = 1) \/ (x < 0 /\ np_sign x = -1) \/
  (x = 0 /\ np_sign x = 0).
Proof.
  unfold np_sign. cbn [fltb feqb of_int R_arith]. unfold R_ltb, R_eqb.
  destruct (Rlt_dec 0 x); [now left|].
  destruct (Rlt_dec x 0); [right; now left|].
  destruct (Req_dec_T x 0); [|lra]. right. now right.
Qed.

(** The ramp [u - floor (1/2 + u)] stays in [[-1/2, 1/2)]. *)
Lemma ramp_range (u : R) :
  - (1 / 2) <= u - IZR (Zfloor (1 / 2 + u)) < 1 / 2.
Proof. pose proof (Zfloor_bound (1 / 2 + u)). lra. Qed.

Lemma overtone_sample_R (f A : R) (overtones : list (R * R)) (t : R) :
  Rabs (overtone_sample f A overtones t)
  <= Rabs A * (1 + fold_right Rplus 0 (map (fun p => Rabs (snd p)) overtones))
  /\ overtone_sample f A overtones 0 = 0.
Proof.
  unfold overtone_sample. cbn [fadd fmul fsin fpi of_int R_arith R_trig].
  set (base := fun t => A * sin (f * 2 * PI * t)).
  change (A * sin (f * 2 * PI * t)) with (base t).
  change (A * sin (f * 2 * PI * 0)) with (base 0).
  assert (Hb : Rabs (base t) <= Rabs A * 1 /\ base 0 = 0).
  { unfold base. split.
    - rewrite Rabs_mult. apply Rmult_le_compat_l; [apply Rabs_pos|].
      apply Rabs_le. pose proof (SIN_bound (f * 2 * PI * t)). lra.
    - rewrite Rmult_0_r, sin_0. ring. }
  revert Hb. generalize (base t) (base 0) 1. clear base.
  induction overtones as [|[m a] rest IH]; intros x x0 c [Hx Hx0].
  - cbn [fold_left map fold_right]. split; [lra | exact Hx0].
  - cbn [fold_left map fold_right fst snd].
    destruct (IH (x + A * a * sin (f * m * 2 * PI * t))
                 (x0 + A * a * sin (f * m * 2 * PI * 0))
                 (c + Rabs a)) as [H1 H2].
    + split.
      * assert (Rabs (A * a * sin (f * m * 2 * PI * t)) <= Rabs A * Rabs a).
        { rewrite !Rabs_mult. rewrite <- (Rmult_1_r (Rabs A * Rabs a)) at 2.
          apply Rmult_le_compat_l.
          - apply Rmult_le_pos; apply Rabs_pos.
          - apply Rabs_le. pose proof (SIN_bound (f * m * 2 * PI * t)). lra. }
        pose proof (Rabs_triang x (A * a * sin (f * m * 2 * PI * t))). lra.
      * rewrite Hx0, Rmult_0_r, sin_0. ring.
    + split; [|exact H2]. lra.
Qed.
End GeneratorsReal.

(** X5: over exact reals and for an int duration [d >= 0], every
    sample of [square f A d] is [A], [0] or [-A], and for [d > 0] the
    first sample is [0] (the sign of sin 0), not [A]. *)
Theorem square_levels :
  forall (f A : R) (d : Z),
    (0 <= d)%Z ->
    exists ys : list R,
      square f A (PyInt d) = Ok ys /\
      length ys = Z.to_nat (d * SAMPLING_FREQ) /\
      Forall (fun y => y = A \/ y = 0%R \/ y = (- A)%R) ys /\
      ((0 < d)%Z -> nth_error ys 0 = Some 0%R).
Proof.
  intros f A d Hd. destruct (time_points_R Hd) as (ts & Hts & Hlen & Hfirst).
  unfold square, sine. rewrite Hts. cbn [bind]. eexists.
  split; [reflexivity|]. rewrite !length_map. split; [exact Hlen|]. split.
  - rewrite map_map. apply Forall_forall. intros y Hy.
    apply in_map_iff in Hy. destruct Hy as (t & <- & _).
    cbn [fmul R_arith].
    match goal with
    | |- context [np_sign ?x] =>
        destruct (np_sign_R x) as [[_ ->]|[[_ ->]|[_ ->]]]
    end.
    + left. ring.
    + right. right. ring.
    + right. left. ring.
  - intros Hpos. destruct (Hfirst Hpos) as (rest & ->). cbn [map nth_error].
    f_equal. cbn [fmul fsin fpi of_int R_arith R_trig].
    match goal with
    | |- context [np_sign ?x] =>
        destruct (np_sign_R x) as [[Hs _]|[[Hs _]|[_ ->]]]
    end.
    + rewrite Rmult_0_r, sin_0 in Hs. lra.
    + rewrite Rmult_0_r, sin_0 in Hs. lra.
    + ring.
Qed.

Lemma square_levels_witness :
  exists ys : list R,
    square 1%R (1 / 2)%R (PyInt 3) = Ok ys /\
    length ys = Z.to_nat (3 * SAMPLING_FREQ) /\
    nth_error ys 0 = Some 0%R.
Proof.
  destruct (@square_levels 1%R (1 / 2)%R 3%Z) as (ys & Hys & Hlen & _ & H0);
    [lia|].
  exists ys. split; [exact Hys|]. split; [exact Hlen|]. apply H0. lia.
Defined.

(** X6: over exact reals and for an int duration [d >= 0], every
    sample [y] of [sawtooth f A d] has [|y| <= |A|], lies in [[-A, A)]
    when [A > 0], and for [d > 0] the first sample is [0]. *)
Theorem sawtooth_range :
  forall (f A : R) (d : Z),
    (0 <= d)%Z ->
    exists ys : list R,
      sawtooth f A (PyInt d) = Ok ys /\
      length ys = Z.to_nat (d * SAMPLING_FREQ) /\
      Forall (fun y => (Rabs y <= Rabs A)%R /\
                       ((0 < A)%R -> (- A <= y < A)%R)) ys /\
      ((0 < d)%Z -> nth_error ys 0 = Some 0%R).
Proof.
  intros f A d Hd. destruct (time_points_R Hd) as (ts & Hts & Hlen & Hfirst).
  unfold sawtooth. rewrite Hts. cbn [bind]. eexists.
  split; [reflexivity|]. rewrite !length_map. split; [exact Hlen|]. split.
  - apply Forall_forall. intros y Hy.
    apply in_map_iff in Hy. destruct Hy as (t & <- & _).
    cbn [fmul fsub fadd fdiv ffloor of_int R_arith R_floor].
    pose proof (ramp_range (t * f)) as Hr.
    set (w := (t * f - IZR (Zfloor (1 / 2 + t * f)))%R) in *.
    split.
    + replace (A * 2 * w)%R with (A * (2 * w))%R by ring.
      rewrite Rabs_mult. rewrite <- (Rmult_1_r (Rabs A)) at 2.
      apply Rmult_le_compat_l; [apply Rabs_pos|]. apply Rabs_le. lra.
    + intros HA. split; nra.
  - intros Hpos. destruct (Hfirst Hpos) as (rest & ->). cbn [map nth_error].
    f_equal. cbn [fmul fsub fadd fdiv ffloor of_int R_arith R_floor].
    replace (1 / 2 + 0 * f)%R with (1 / 2)%R by ring.
    rewrite (Zfloor_eq 0) by (simpl; lra). simpl. ring.
Qed.

Lemma sawtooth_range_witness :
  exists ys : list R,
    sawtooth 10%R (1 / 10)%R (PyInt 3) = Ok ys /\
    length ys = Z.to_nat (3 * SAMPLING_FREQ) /\
    Forall (fun y => (Rabs y <= Rabs (1 / 10))%R /\
                     ((0 < 1 / 10)%R -> (- (1 / 10) <= y < 1 / 10)%R)) ys.
Proof.
  destruct (@sawtooth_range 10%R (1 / 10)%R 3%Z) as (ys & Hys & Hlen & Hr & _);
    [lia|].
  exists ys. split; [exact Hys|]. split; [exact Hlen | exact Hr].
Defined.

(** X7: over exact reals and for an int duration [d >= 0], every
    sample of [sine_with_overtones f A overtones d] is bounded in
    magnitude by [|A| * (1 + sum of the |amplitude factors|)], and for
    [d > 0] the first sample is [0], whatever the overtones. *)
Theorem sine_with_overtones_bound :
  forall (f A : R) (overtones : list (R * R)) (d : Z),
    (0 <= d)%Z ->
    exists ys : list R,
      sine_with_overtones f A overtones (PyInt d) = Ok ys /\
      length ys = Z.to_nat (d * SAMPLING_FREQ) /\
      Forall (fun y =>
                (Rabs y
                 <= Rabs A * (1 + fold_right Rplus 0
                                    (map (fun p => Rabs (snd p)) overtones)))%R)
             ys /\
      ((0 < d)%Z -> nth_error ys 0 = Some 0%R).
Proof.
  intros f A overtones d Hd.
  destruct (time_points_R Hd) as (ts & Hts & Hlen & Hfirst).
  unfold sine_with_overtones, sine at 1. rewrite Hts. cbn [bind].
  rewrite add_overtones_samplewise with (ts := ts) by exact Hts.
  eexists. split; [reflexivity|]. rewrite length_map.
  split; [exact Hlen|]. split.
  - apply Forall_forall. intros y Hy.
    apply in_map_iff in Hy. destruct Hy as (t & <- & _).
    exact (proj1 (overtone_sample_R f A overtones t)).
  - intros Hpos. destruct (Hfirst Hpos) as (rest & ->). cbn [map nth_error].
    f_equal. exact (proj2 (overtone_sample_R f A overtones 0%R)).
Qed.

Lemma sine_with_overtones_bound_witness :
  exists ys : list R,
    sine_with_overtones 220%R 1%R [(2, 1 / 2)%R] (PyInt 10) = Ok ys /\
    length ys = Z.to_nat (10 * SAMPLING_FREQ) /\
    nth_error ys 0 = Some 0%R.
Proof.
  destruct (@sine_with_overtones_bound 220%R 1%R [(2, 1 / 2)%R] 10%Z)
    as (ys & Hys & Hlen & _ & H0); [lia|].
  exists ys. split; [exact Hys|]. split; [exact Hlen|]. apply H0. lia.
Defined.

(** ** Channels: edges of merging, outcome of separating *)

Section ChannelsAny.
Context {F : Type} `{Arith F}.

Lemma merge_channels_single (a : list F) : merge_channels [a] = Ok a.
Proof.
  destruct (merge_channels_layout [a]) as (out & Hout & Hlen & Hnth).
  rewrite Hout. f_equal. cbn [length shortest] in *.
  apply nth_error_ext. intros j.
  destruct (Nat.lt_ge_cases j (length a)) as [Hj|Hj].
  - rewrite <- (Hnth j 0 a Hj eq_refl). f_equal. lia.
  - transitivity (@None F); [|symmetry]; apply nth_error_None; lia.
Qed.

Lemma merge_channels_empty_channel (channels : list (list F)) :
  In [] channels -> merge_channels channels = Ok [].
Proof.
  intros Hin.
  destruct (merge_channels_layout channels) as (out & Hout & Hlen & _).
  rewrite Hout. f_equal. apply length_zero_iff_nil. rewrite Hlen.
  assert (Hs : shortest channels = 0).
  { apply shortest_zero; [|assumption]. intros ->. contradiction. }
  rewrite Hs. lia.
Qed.
End ChannelsAny.

(** X8: what [separate_channels] returns, for any samples and any
    number of channels: the empty sequence for a number of channels of
    0 or less (no error, not even for 0), and [ValueError] for every
    positive number of channels.  It never returns a sequence of
    channels. *)
Theorem separate_channels_outcome :
  forall (F : Type) (HA : Arith F) (samples : list F) (num_channels : Z),
    separate_channels samples num_channels
    = if (num_channels <=? 0)%Z then Ok [] else Err ValueError.
Proof.
  intros F HA samples n. unfold separate_channels, py_range.
  destruct (Z.leb_spec n 0) as [Hn|Hn].
  - replace (Z.to_nat n) with 0 by lia. reflexivity.
  - replace (Z.to_nat n) with (S (Z.to_nat (n - 1))) by lia. reflexivity.
Qed.

(** X9: edges of [merge_channels], whatever the arithmetic: no channel
    at all gives the empty sequence, one empty channel empties the
    result whatever the other channels hold, and a single channel is
    returned unchanged. *)
Theorem merge_channels_edges :
  forall (F : Type) (HA : Arith F),
    merge_channels (F := F) [] = Ok [] /\
    (forall channels : list (list F),
        In [] channels -> merge_channels channels = Ok []) /\
    (forall a : list F, merge_channels [a] = Ok a).
Proof.
  intros F HA. split; [reflexivity|]. split.
  - apply merge_channels_empty_channel.
  - apply merge_channels_single.
Qed.

Lemma merge_channels_edges_witness :
  merge_channels (F := binary64)
    [[of_int 1; of_int 2]; []; [of_int 3]] = Ok [].
Proof.
  destruct (merge_channels_edges binary64_arith) as (_ & Hempty & _).
  apply Hempty. simpl. auto.
Defined.

(** ** Encoding: chunks and stereo frames *)

Section EncodingAny.
Context {F : Type} `{Arith F}.

Lemma convert_to_bytes_app (x y : list F) :
  convert_to_bytes (x ++ y) = convert_to_bytes x ++ convert_to_bytes y.
Proof.
  unfold convert_to_bytes. rewrite !map_app, concat_app. reflexivity.
Qed.

Lemma convert_to_bytes_concat (rows : list (list F)) :
  convert_to_bytes (concat rows) = concat (map convert_to_bytes rows).
Proof.
  induction rows as [|r rows IH]; [reflexivity|].
  cbn [concat map]. rewrite convert_to_bytes_app, IH. reflexivity.
Qed.

(** [zip] of two sequences pairs them up to the shorter one. *)
Lemma py_zip_pair (a b : list F) :
  py_zip [a; b] = map (fun p => [fst p; snd p]) (combine a b).
Proof.
  unfold py_zip. revert b. induction a as [|x a IH]; intros b.
  - reflexivity.
  - destruct b as [|y b].
    + reflexivity.
    + cbn [length zip_rows heads map tl combine fst snd].
      rewrite <- IH. reflexivity.
Qed.
End EncodingAny.

(** X10: encoding is done sample by sample: the buffer of a
    concatenation is the concatenation of the buffers, and a sequence
    of [n] samples gives exactly [2 * n] bytes, whatever the values
    (NaN and infinities included). *)
Theorem convert_to_bytes_chunks :
  forall (F : Type) (HA : Arith F) (x y : list F),
    convert_to_bytes (x ++ y) = convert_to_bytes x ++ convert_to_bytes y /\
    length (convert_to_bytes x) = 2 * length x.
Proof.
  intros F HA x y. split.
  - apply convert_to_bytes_app.
  - apply convert_to_bytes_length.
Qed.

(** X11: the two-channel pipeline of [main], [convert_to_bytes] after
    [merge_channels]: the buffer is a sequence of 4-byte frames, the
    frame of index [j] being the two bytes of [a[j]] followed by the two
    bytes of [b[j]], and there are as many frames as samples in the
    shorter channel. *)
Theorem stereo_frames :
  forall (F : Type) (HA : Arith F) (a b : list F),
    exists merged,
      merge_channels [a; b] = Ok merged /\
      convert_to_bytes merged
      = concat (map (fun p => convert_to_bytes [fst p] ++
                              convert_to_bytes [snd p])
                    (combine a b)) /\
      length (convert_to_bytes merged)
      = 4 * Nat.min (length a) (length b).
Proof.
  intros F HA a b. exists (concat (py_zip [a; b])).
  split; [apply merge_channels_eq|].
  assert (Hlay : convert_to_bytes (concat (py_zip [a; b]))
                 = concat (map (fun p => convert_to_bytes [fst p] ++
                                         convert_to_bytes [snd p])
                               (combine a b))).
  { rewrite py_zip_pair, convert_to_bytes_concat, map_map. reflexivity. }
  split; [exact Hlay|].
  rewrite convert_to_bytes_length.
  pose proof (py_zip_rows_width [a; b]) as Hw.
  rewrite (concat_uniform_length Hw), py_zip_length. cbn [length shortest].
  lia.
Qed.

(** ** Encoding over exact reals *)

Section EncodingReal.
Local Open Scope R_scope.

Lemma np_clip_R (x : R) :
  np_clip x (of_int (-1)) (of_int 1) = Rmax (-1) (Rmin x 1).
Proof.
  unfold np_clip. cbn [fisnan fltb of_int R_arith orb].
  unfold R_ltb, Rmax, Rmin.
  destruct (Rlt_dec (-1) x);
    [destruct (Rlt_dec x 1) | destruct (Rlt_dec (-1) 1)];
    destruct (Rle_dec x 1); destruct (Rle_dec (-1) _); lra.
Qed.

Lemma R_to_int_IZR (z : Z) : R_to_int (IZR z) = z.
Proof.
  unfold R_to_int, Zceil. destruct (Rle_dec 0 (IZR z)).
  - apply ZfloorZ.
  - rewrite ZfloorNZ. lia.
Qed.

Lemma R_to_int_le (u v : R) : u <= v -> (R_to_int u <= R_to_int v)%Z.
Proof.
  intros Huv. unfold R_to_int, Zceil.
  destruct (Rle_dec 0 u), (Rle_dec 0 v); try lra.
  - now apply Zfloor_le.
  - pose proof (Zfloor_bound (- u)) as [Hl _].
    assert (H0 : (0 <= Zfloor (- u))%Z) by (apply Zfloor_lub; simpl; lra).
    assert (H1 : (0 <= Zfloor v)%Z) by (apply Zfloor_lub; simpl; lra).
    lia.
  - assert ((Zfloor (- v) <= Zfloor (- u))%Z) by (apply Zfloor_le; lra).
    lia.
Qed.

Lemma R_to_int_opp (u : R) : R_to_int (- u) = (- R_to_int u)%Z.
Proof.
  unfold R_to_int, Zceil.
  destruct (Rle_dec 0 u), (Rle_dec 0 (- u)); try lia.
  - assert (u = 0) by lra. subst. rewrite Ropp_0.
    change 0 with (IZR 0). rewrite ZfloorZ. reflexivity.
  - rewrite Ropp_involutive. lia.
  - lra.
Qed.

(** The 16-bit integer written for a real sample. *)
Lemma encoded_int_R (x : R) :
  astype_i2 (fmul (np_clip x (of_int (-1)) (of_int 1))
                  (of_int MAX_INT_SAMPLE_VALUE))
  = R_to_int (Rmax (-1) (Rmin x 1) * 32767).
Proof.
  rewrite np_clip_R. apply astype_i2_R_scaled.
  unfold Rmax, Rmin. destruct (Rle_dec x 1); destruct (Rle_dec (-1) _); lra.
Qed.

Lemma np_frombuffer_encoded_R (xs : list R) :
  np_frombuffer_i2 (convert_to_bytes xs)
  = Ok (map (fun x => R_to_int (Rmax (-1) (Rmin x 1) * 32767)) xs).
Proof.
  rewrite convert_to_bytes_ints, np_frombuffer_i2_tobytes, !map_map.
  f_equal. apply map_ext. intros x. rewrite encoded_int_R.
  rewrite <- encoded_int_R. apply int16_wrap_small.
  unfold astype_i2. apply int16_wrap_range.
Qed.
End EncodingReal.

(** X12: read back as 16-bit integers, the buffer of any real samples
    holds only values from -32767 to 32767 (never -32768); a sample of
    1 or more is written as 32767 and a sample of -1 or less as
    -32767. *)
Theorem encoder_saturates :
  forall xs : list R,
    exists ks : list Z,
      np_frombuffer_i2 (convert_to_bytes xs) = Ok ks /\
      Forall2 (fun x k =>
                 (-32767 <= k <= 32767)%Z /\
                 ((1 <= x)%R -> k = 32767%Z) /\
                 ((x <= -1)%R -> k = (-32767)%Z))
              xs ks.
Proof.
  intros xs. eexists. split; [apply np_frombuffer_encoded_R|].
  induction xs as [|x xs IH]; cbn [map]; constructor; [|exact IH].
  split; [|split].
  - assert (Hlo : (R_to_int (IZR (-1) * 32767)
                   <= R_to_int (Rmax (-1) (Rmin x 1) * 32767))%Z).
    { apply R_to_int_le. unfold Rmax, Rmin.
      destruct (Rle_dec x 1); destruct (Rle_dec (-1) _); lra. }
    assert (Hhi : (R_to_int (Rmax (-1) (Rmin x 1) * 32767)
                   <= R_to_int (IZR 1 * 32767))%Z).
    { apply R_to_int_le. unfold Rmax, Rmin.
      destruct (Rle_dec x 1); destruct (Rle_dec (-1) _); lra. }
    rewrite <- mult_IZR, R_to_int_IZR in Hlo, Hhi. lia.
  - intros Hx. replace (Rmax (-1) (Rmin x 1)) with (IZR 1).
    + rewrite <- mult_IZR, R_to_int_IZR. reflexivity.
    + unfold Rmax, Rmin.
      destruct (Rle_dec x 1); destruct (Rle_dec (-1) _); lra.
  - intros Hx. replace (Rmax (-1) (Rmin x 1)) with (IZR (-1)).
    + rewrite <- mult_IZR, R_to_int_IZR. reflexivity.
    + unfold Rmax, Rmin.
      destruct (Rle_dec x 1); destruct (Rle_dec (-1) _); lra.
Qed.

(** X13: the encoder keeps the order of real samples: a smaller sample
    is never written as a larger integer. *)
Theorem encoder_monotone :
  forall x y : R,
    (x <= y)%R ->
    exists kx ky : Z,
      np_frombuffer_i2 (convert_to_bytes [x; y]) = Ok [kx; ky] /\
      (kx <= ky)%Z.
Proof.
  intros x y Hxy. do 2 eexists.
  split; [apply (np_frombuffer_encoded_R [x; y])|].
  apply R_to_int_le. apply Rmult_le_compat_r; [lra|].
  unfold Rmax, Rmin.
  destruct (Rle_dec x 1); destruct (Rle_dec y 1);
    repeat destruct (Rle_dec (-1) _); lra.
Qed.

Lemma encoder_monotone_witness :
  exists kx ky : Z,
    np_frombuffer_i2 (convert_to_bytes [(1 / 4)%R; (1 / 2)%R]) = Ok [kx; ky] /\
    (kx <= ky)%Z.
Proof.
  apply (@encoder_monotone (1 / 4)%R (1 / 2)%R). lra.
Defined.

(** X14: the encoder is symmetric about zero: the integer written for
    [-x] is the opposite of the one written for [x] (truncation is
    toward zero on both sides). *)
Theorem encoder_odd :
  forall x : R,
    exists k : Z,
      np_frombuffer_i2 (convert_to_bytes [x; (- x)%R]) = Ok [k; (- k)%Z].
Proof.
  intros x. eexists.
  rewrite (np_frombuffer_encoded_R [x; (- x)%R]). cbn [map]. do 3 f_equal.
  rewrite <- R_to_int_opp. f_equal.
  unfold Rmax, Rmin.
  destruct (Rle_dec x 1); destruct (Rle_dec (- x) 1);
    repeat destruct (Rle_dec (-1) _); lra.
Qed.

Lemma local_samples_within_one_step_witness :
  exists y : list R,
    convert_to_samples_local (convert_to_bytes [(1 / 2)%R; (-1)%R]) = Ok y /\
    Forall2 (fun s d => (Rabs (d - s) <= 1 / IZR MAX_INT_SAMPLE_VALUE)%R)
            [(1 / 2)%R; (-1)%R] y.
Proof.
  apply (@local_samples_within_one_step [(1 / 2)%R; (-1)%R]).
  repeat constructor; lra.
Defined.

(** ** Normalisation: NaN, gain, repetition, clipping *)

Section NormalizeNaN.
Implicit Types (xs : list binary64) (x : binary64).

Lemma np_maximum_nan_r x : np_maximum x S754_nan = S754_nan.
Proof. destruct x as [s|s| |s m e]; try destruct s; reflexivity. Qed.

Lemma fold_maximum_nan xs : fold_left np_maximum xs S754_nan = S754_nan.
Proof. induction xs as [|y l IH]; [reflexivity | exact IH]. Qed.

Lemma fold_maximum_poisoned xs x :
  In S754_nan xs -> fold_left np_maximum xs x = S754_nan.
Proof.
  revert x. induction xs as [|y l IH]; intros x; [contradiction|].
  intros [->|Hin]; cbn [fold_left].
  - rewrite np_maximum_nan_r. apply fold_maximum_nan.
  - now apply IH.
Qed.

Lemma np_max_poisoned xs :
  In S754_nan xs -> np_max xs = Ok S754_nan.
Proof.
  destruct xs as [|x l]; [contradiction|]. intros [->|Hin]; cbn [np_max].
  - now rewrite fold_maximum_nan.
  - now rewrite fold_maximum_poisoned.
Qed.
End NormalizeNaN.

(** X15: on binary64, a single NaN sample makes [normalize] return a
    sequence of NaN only, for any target: the NaN becomes the peak and
    from there the coefficient of every sample. *)
Theorem normalize_nan_poisons :
  forall (xs : list binary64) (target : binary64),
    In S754_nan xs ->
    normalize xs target = Ok (map (fun _ => S754_nan) xs).
Proof.
  intros xs target Hin. unfold normalize.
  rewrite np_max_poisoned.
  - cbn [bind]. f_equal. apply map_ext. intros s.
    cbn [fmul fdiv binary64_arith]. destruct target; reflexivity.
  - apply in_map_iff. exists S754_nan. split; [reflexivity | exact Hin].
Qed.

Lemma normalize_nan_poisons_witness :
  normalize [b64_of_int 1; S754_nan; b64_of_int (-3)] (b64_of_int 1)
  = Ok [S754_nan; S754_nan; S754_nan].
Proof.
  apply (@normalize_nan_poisons
           [b64_of_int 1; S754_nan; b64_of_int (-3)] (b64_of_int 1)).
  simpl. auto.
Defined.

Section NormalizeMoreReal.
Local Open Scope R_scope.

Lemma np_max_le (xs : list R) (peak : R) :
  np_max xs = Ok peak -> Forall (fun x => x <= peak) xs.
Proof.
  destruct xs as [|x l]; [discriminate|]. cbn [np_max]. intros E.
  injection E as <-. destruct (fold_maximum_ge l x) as [H1 H2].
  constructor; assumption.
Qed.

Lemma np_max_abs_scale (xs : list R) (k peak : R) :
  0 <= k -> np_max (map Rabs xs) = Ok peak ->
  np_max (map Rabs (map (Rmult k) xs)) = Ok (k * peak).
Proof.
  intros Hk. destruct xs as [|x l]; [discriminate|].
  cbn [map np_max]. intros E. injection E as <-. f_equal.
  rewrite map_map.
  rewrite (map_ext (fun s => Rabs (k * s)) (fun s => k * Rabs s))
    by (intros; rewrite Rabs_mult, (Rabs_right k) by lra; reflexivity).
  rewrite <- (map_map Rabs (Rmult k)).
  rewrite Rabs_mult, (Rabs_right k) by lra.
  now apply fold_maximum_scale.
Qed.
End NormalizeMoreReal.

(** X16: over exact reals, normalising twice to the same positive
    target changes nothing more: the result of [normalize] is a fixed
    point of [normalize] for that target. *)
Theorem normalize_idempotent :
  forall (xs : list R) (target : R),
    (0 < target)%R -> Exists (fun s => s <> 0%R) xs ->
    exists out,
      normalize xs target = Ok out /\ normalize out target = Ok out.
Proof.
  intros xs target Ht Hex.
  destruct (normalize_R_peak target Hex) as (peak & out & _ & Hn & _ & Hp).
  exists out. split; [exact Hn|].
  unfold normalize. cbn [fabs R_arith]. rewrite Hp. cbn [bind]. f_equal.
  rewrite Rabs_right by lra.
  rewrite <- (map_id out) at 2. apply map_ext. intros s.
  cbn [fmul fdiv R_arith]. field. lra.
Qed.

Lemma normalize_idempotent_witness :
  exists out,
    normalize [3; -4]%R 2%R = Ok out /\ normalize out 2%R = Ok out.
Proof.
  apply (@normalize_idempotent [3; -4]%R 2%R).
  - lra.
  - apply Exists_cons_hd. lra.
Defined.

(** X17: over exact reals, [normalize] forgets the gain of its input:
    a signal multiplied by any [k > 0] is normalised to the same
    sequence. *)
Theorem normalize_gain_invariant :
  forall (xs : list R) (target k : R),
    (0 < k)%R -> Exists (fun s => s <> 0%R) xs ->
    normalize (map (Rmult k) xs) target = normalize xs target.
Proof.
  intros xs target k Hk Hex.
  destruct (np_max_abs_positive Hex) as (peak & Hpeak & Hpos).
  unfold normalize. cbn [fabs R_arith].
  rewrite (@np_max_abs_scale xs k peak) by (lra || assumption).
  rewrite Hpeak. cbn [bind]. f_equal. rewrite map_map.
  apply map_ext. intros s. cbn [fmul fdiv R_arith]. field. lra.
Qed.

Lemma normalize_gain_invariant_witness :
  normalize (map (Rmult 5%R) [3; -4]%R) 2%R = normalize [3; -4]%R 2%R.
Proof.
  apply (@normalize_gain_invariant [3; -4]%R 2%R 5%R).
  - lra.
  - apply Exists_cons_hd. lra.
Defined.

(** X18: over exact reals, after [normalize] to a target of magnitude
    at most 1 (0.89 in [main]) every sample is within the target, so
    that the clipping of [convert_to_bytes] leaves it unchanged. *)
Theorem normalize_prevents_clipping :
  forall (xs : list R) (target : R),
    (Rabs target <= 1)%R -> Exists (fun s => s <> 0%R) xs ->
    exists out,
      normalize xs target = Ok out /\
      Forall (fun s => (Rabs s <= Rabs target)%R /\
                       np_clip s (of_int (-1)) (of_int 1) = s) out.
Proof.
  intros xs target Ht Hex.
  destruct (normalize_R_peak target Hex) as (peak & out & _ & Hn & _ & Hp).
  exists out. split; [exact Hn|].
  apply np_max_le in Hp. rewrite Forall_forall in Hp.
  apply Forall_forall. intros s Hs.
  assert (Hb : (Rabs s <= Rabs target)%R) by (apply Hp; now apply in_map).
  split; [exact Hb|]. apply np_clip_R_inside.
  assert (Hs1 : (Rabs s <= 1)%R) by lra.
  revert Hs1. unfold Rabs. destruct (Rcase_abs s); lra.
Qed.

Lemma normalize_prevents_clipping_witness :
  exists out,
    normalize [3; -4]%R (89 / 100)%R = Ok out /\
    Forall (fun s => (Rabs s <= Rabs (89 / 100))%R /\
                     np_clip s (of_int (-1)) (of_int 1) = s) out.
Proof.
  apply (@normalize_prevents_clipping [3; -4]%R (89 / 100)%R).
  - rewrite Rabs_right; lra.
  - apply Exists_cons_hd. lra.
Defined.
